(** * Dynalinks React Native SDK: the JavaScript facade and its normalizers

    A shallow embedding of [src/errors.ts] (the typed errors and
    [fromNativeError], in its two versions), [src/types.ts] (the
    configuration), [src/Dynalinks.ts] (the facade [configure],
    [checkForDeferredDeepLink], [resolveLink] and the private
    [parseResult]), and of the two native modules behind the bridge, the
    Android one in Kotlin and the later iOS one in Swift.

    Values whose TypeScript type is [any] (what the native module resolves or
    rejects with) are modelled as untyped JavaScript values; objects are
    finite maps from property names to values, so that a property which is
    present with the value [undefined] differs from a property which is not
    there. *)

From stdpp Require Import gmap strings pretty.
From Stdlib Require Import ZArith.
From Stdlib Require QArith Qround SpecFloat.

Set Warnings "-register-all".
Open Scope string_scope.

(** ** JavaScript values *)

Module Js.

(** The values that cross the bridge: what the native modules encode are
    dictionaries of strings, numbers and booleans; arrays and nested
    dictionaries are the other data a bridge can carry. An object is the
    finite map of its own properties. A number is a double: NaN, a signed
    zero, a signed infinity or [±m·2^e]. No function crosses the bridge;
    the functions are the built-in ones, which the code can only come by
    when it reads a property of a primitive value (["abc".link]); one is
    given by its name. *)
Inductive JsValue : Type :=
| JUndefined
| JNull
| JBool (b : bool)
| JNum (x : SpecFloat.spec_float)
| JStr (s : string)
| JObj (fields : gmap string JsValue)
| JArr (items : list JsValue)
| JFun (name : string).

(** The number with the integer value [n]. *)
Definition integer (n : Z) : SpecFloat.spec_float :=
  match n with
  | Z0 => SpecFloat.S754_zero false
  | Zpos m => SpecFloat.S754_finite false m 0
  | Zneg m => SpecFloat.S754_finite true m 0
  end.

(** [v === undefined || v === null]: the two values without properties. *)
Definition is_nullish (v : JsValue) : bool :=
  match v with
  | JUndefined | JNull => true
  | _ => false
  end.

(** ToBoolean *)
Definition truthy (v : JsValue) : bool :=
  match v with
  | JUndefined | JNull => false
  | JBool b => b
  | JNum (SpecFloat.S754_zero _) | JNum SpecFloat.S754_nan => false
  | JNum _ => true
  | JStr s => negb (String.eqb s "")
  | JObj _ => true
  | JArr _ => true
  | JFun _ => true
  end.

(** [a || b] *)
Definition js_or (a b : JsValue) : JsValue :=
  if truthy a then a else b.

(** A formal parameter with a default value, [(p = d)]: the default is taken
    exactly when the argument is [undefined]. *)
Definition default_param (arg d : JsValue) : JsValue :=
  match arg with
  | JUndefined => d
  | _ => arg
  end.

(** A field of an optional TypeScript property, read from a typed record. *)
Definition optional {A : Type} (inj : A -> JsValue) (o : option A) : JsValue :=
  match o with
  | Some a => inj a
  | None => JUndefined
  end.

(** An object literal [{ k1: v1, ..., kn: vn }]: the properties are defined
    from left to right, a later one replacing an earlier one of the same
    name. *)
Definition object_fields (props : list (string * JsValue)) : gmap string JsValue :=
  foldl (λ fields kv, <[kv.1 := kv.2]> fields) ∅ props.

Definition object (props : list (string * JsValue)) : JsValue :=
  JObj (object_fields props).

(** Completion of an expression or statement: a value, or a thrown value. *)
Inductive Completion (A : Type) : Type :=
| Normal (a : A)
| Throw (error : JsValue).
Arguments Normal {A} a.
Arguments Throw {A} error.

#[global] Instance Completion_ret : MRet Completion := fun A a => Normal a.
#[global] Instance Completion_bind : MBind Completion :=
  fun A B f c =>
    match c with
    | Normal a => f a
    | Throw e => Throw e
    end.

(** What the engine supplies and the program text does not fix. *)
Record Host : Type := {
  (** [v.k] for a primitive [v] (boolean, number, string), an array or a
      function: the lookup goes to the prototype of the wrapper object or
      of arrays, or to the function (the facade reads no index and no
      [length]). *)
  prototypeGet : JsValue -> string -> JsValue;
  (** message of the [TypeError] raised by [v.k] when [v] is [undefined]
      or [null] *)
  typeErrorMessage : JsValue -> string -> string;
  (** [Number::toString] *)
  numberToString : SpecFloat.spec_float -> string;
  (** [Function.prototype.toString] of the built-in function of a name *)
  functionToString : string -> string;
  (** message of the [TypeError] raised when an object cannot be converted
      to a primitive value *)
  conversionErrorMessage : JsValue -> string;
  (** the conversion to a string of an object that holds a function under
      [toString], or under [valueOf] while its [toString] is no function:
      what the call of that function on the object comes to *)
  convertByMethod : JsValue -> Completion string
}.

Definition TypeError (host : Host) (v : JsValue) (k : string) : JsValue :=
  object [ ("name", JStr "TypeError");
           ("message", JStr (typeErrorMessage host v k)) ].

(** The [TypeError] of a failed conversion to a primitive value. *)
Definition ConversionError (host : Host) (v : JsValue) : JsValue :=
  object [ ("name", JStr "TypeError");
           ("message", JStr (conversionErrorMessage host v)) ].

(** ToString. An object is converted by the [toString] it finds: the one
    of [Object.prototype], which prints [[object Object]], unless the
    object has a property [toString] of its own. When that one is no
    function, [valueOf] is tried: the one of [Object.prototype] gives the
    object back, no primitive value, and one of the object's own that is no
    function is passed over, so that the conversion throws. An array is
    converted by [join]: its elements, converted in turn, with commas
    between them, [undefined] and [null] giving the empty string. A
    function prints its source text. *)
Fixpoint ToString (host : Host) (v : JsValue) : Completion string :=
  match v with
  | JUndefined => Normal "undefined"
  | JNull => Normal "null"
  | JBool true => Normal "true"
  | JBool false => Normal "false"
  | JNum x => Normal (numberToString host x)
  | JStr s => Normal s
  | JFun name => Normal (functionToString host name)
  | JObj fields =>
      match fields !! "toString" with
      | None => Normal "[object Object]"
      | Some (JFun _) => convertByMethod host v
      | Some _ =>
          match fields !! "valueOf" with
          | Some (JFun _) => convertByMethod host v
          | _ => Throw (ConversionError host v)
          end
      end
  | JArr items =>
      (fix join (items : list JsValue) : Completion string :=
         match items with
         | [] => Normal ""
         | item :: rest =>
             match (match item with
                    | JUndefined | JNull => Normal ""
                    | _ => ToString host item
                    end) with
             | Normal s =>
                 match rest with
                 | [] => Normal s
                 | _ =>
                     match join rest with
                     | Normal r => Normal (s ++ "," ++ r)
                     | Throw e => Throw e
                     end
                 end
             | Throw e => Throw e
             end
         end) items
  end.

(** The value of [v.k] where it does not throw. A property that an object
    does not have reads as [undefined]: the objects here are plain
    dictionaries, and [Object.prototype] defines none of the names the
    facade reads. *)
Definition read (host : Host) (v : JsValue) (k : string) : JsValue :=
  match v with
  | JObj fields => default JUndefined (fields !! k)
  | _ => prototypeGet host v k
  end.

(** Property access [v.k]. *)
Definition get (host : Host) (v : JsValue) (k : string) : Completion JsValue :=
  if is_nullish v then Throw (TypeError host v k) else Normal (read host v k).

(** [Number::toString(x, 10)]: the digits are those of the shortest
    decimal that denotes [x], that is, that is nearer to [x] than to any
    other double. *)
Module NumberToString.

Import QArith Qround.
Local Open Scope Q_scope.

(** [b^z] for an integer [z] of either sign *)
Definition power (b : Z) (z : Z) : Q := Qpower (inject_Z b) z.

(** The [n] with [10^(n-1) ≤ v < 10^n], searched from [n]. *)
Fixpoint decimalExponent (fuel : nat) (v : Q) (n : Z) : Z :=
  match fuel with
  | O => n
  | S fuel =>
      if Qle_bool (power 10 n) v then decimalExponent fuel v (n + 1)
      else if Qle_bool (power 10 (n - 1)) v then n
      else decimalExponent fuel v (n - 1)
  end.

(** The doubles nearest to [v = m·2^e] lie one unit in the last place
    [2^q] away, the one below half as far when [v] is a power of two
    that is not the least normal number; a decimal denotes [v] when it
    lies between the two midpoints, which are included when the
    significand of [v] is even. *)
Definition denotes (m : positive) (e : Z) (c : Q) : bool :=
  let v := inject_Z (Z.pos m) * power 2 e in
  let q := Z.max (e + Z.log2 (Z.pos m) - 52) (-1074) in
  let even := Z.even (Z.shiftl (Z.pos m) (e - q)) in
  let below :=
    if (Z.pos m =? 2 ^ Z.log2 (Z.pos m))%Z && (-1074 <? q)%Z
    then power 2 (q - 2) else power 2 (q - 1) in
  let low := v - below in
  let high := v + power 2 (q - 1) in
  if even then Qle_bool low c && Qle_bool c high
  else negb (Qle_bool c low) && negb (Qle_bool high c).

(** The digits [s] and the exponent [n] of the shortest decimal
    [s·10^(n-k)], [k] digits long, that denotes [v]; of two of the same
    length the one nearer to [v]. *)
Fixpoint shortest (fuel : nat) (m : positive) (e : Z) (n k : Z) : Z * Z :=
  let v := inject_Z (Z.pos m) * power 2 e in
  let scaled := v * power 10 (k - n) in
  let lower := Qfloor scaled in
  let upper := (lower + 1)%Z in
  let value (s : Z) := inject_Z s * power 10 (n - k) in
  let result (s : Z) := if (s =? 10 ^ k)%Z then ((s / 10)%Z, (n + 1)%Z) else (s, n) in
  let nearer_lower :=
    let d := (scaled - inject_Z lower) - (inject_Z upper - scaled) in
    match Qcompare d 0 with
    | Lt => true
    | Eq => Z.even lower
    | Gt => false
    end in
  match fuel with
  | O => result lower
  | S fuel =>
      match denotes m e (value lower), denotes m e (value upper) with
      | true, true => result (if nearer_lower then lower else upper)
      | true, false => result lower
      | false, true => result upper
      | false, false => shortest fuel m e n (k + 1)
      end
  end.

Definition zeros (n : Z) : string := String.concat "" (replicate (Z.to_nat n) "0").

Definition take (n : Z) (s : string) : string := String.substring 0 (Z.to_nat n) s.
Definition drop (n : Z) (s : string) : string :=
  String.substring (Z.to_nat n) (String.length s - Z.to_nat n) s.

(** The string of the positive number [m·2^e]. *)
Definition positiveToString (m : positive) (e : Z) : string :=
  let v := inject_Z (Z.pos m) * power 2 e in
  let '(s, n) := shortest 17 m e (decimalExponent 400 v 0) 1 in
  let digits := pretty s in
  let k := Z.of_nat (String.length digits) in
  if (k <=? n)%Z && (n <=? 21)%Z then digits ++ zeros (n - k)
  else if (0 <? n)%Z && (n <=? 21)%Z then take n digits ++ "." ++ drop n digits
  else if (-6 <? n)%Z && (n <=? 0)%Z then "0." ++ zeros (- n) ++ digits
  else
    let exponent := ((if (n - 1 <? 0)%Z then "-" else "+") ++ pretty (Z.abs (n - 1)))%string in
    if (k =? 1)%Z then digits ++ "e" ++ exponent
    else take 1 digits ++ "." ++ drop 1 digits ++ "e" ++ exponent.

Definition numberToString (x : SpecFloat.spec_float) : string :=
  match x with
  | SpecFloat.S754_nan => "NaN"
  | SpecFloat.S754_zero _ => "0"
  | SpecFloat.S754_infinity false => "Infinity"
  | SpecFloat.S754_infinity true => "-Infinity"
  | SpecFloat.S754_finite false m e => positiveToString m e
  | SpecFloat.S754_finite true m e => "-" ++ positiveToString m e
  end.

End NumberToString.

(** An engine as V8 is one. Of the properties the facade reads, the
    prototypes of the primitive values and of arrays define one, the
    method [link] of strings; a function has its [name]. That method is
    the one function the facade can come by; called on an object to
    convert it, it starts by converting the object to a string, without
    end, until the engine throws a [RangeError]. *)
Definition plainHost : Host :=
  {| prototypeGet := fun v k =>
       match v with
       | JStr _ => if String.eqb k "link" then JFun "link" else JUndefined
       | JFun name => if String.eqb k "name" then JStr name else JUndefined
       | _ => JUndefined
       end;
     typeErrorMessage := fun v k =>
       "Cannot read properties of " ++
       match v with JNull => "null" | _ => "undefined" end ++
       " (reading '" ++ k ++ "')";
     numberToString := NumberToString.numberToString;
     functionToString := fun name => "function " ++ name ++ "() { [native code] }";
     conversionErrorMessage := fun _ => "Cannot convert object to primitive value";
     convertByMethod := fun _ =>
       Throw (object [ ("name", JStr "RangeError");
                       ("message", JStr "Maximum call stack size exceeded") ]) |}.

End Js.
Export Js.

(** ** [errors.ts]: the typed errors

    The repository holds two versions of this file. The one embedded here
    is the later one, with ten classes under [DynalinksError] and eleven
    case labels in [fromNativeError]; the earlier one stops at
    [NoMatchError]. *)

Module Errors.

(** An instance of [DynalinksError] or of one of its subclasses. The
    [name] is the one the constructor of the class assigns last. *)
Record DynalinksError : Type := {
  name : string;
  code : string;
  message : string
}.

Section Classes.

Variable host : Host.

(** [new Error(message)]: the [message] property is [ToString(message)],
    which may throw, unless the argument is [undefined], in which case the
    instance has no own message and reads the empty one of
    [Error.prototype]. *)
Definition Error_message (message : JsValue) : Completion string :=
  match message with
  | JUndefined => Normal ""
  | _ => ToString host message
  end.

(** [new DynalinksError(code, message)] *)
Definition new_DynalinksError (code : string) (message : JsValue) : Completion DynalinksError :=
  msg ← Error_message message;
  mret {| name := "DynalinksError"; code := code; message := msg |}.

(** [super(code, message); this.name = n] *)
Definition subclass (n : string) (code : string) (message : JsValue) : Completion DynalinksError :=
  this ← new_DynalinksError code message;
  mret {| name := n; code := Errors.code this; message := Errors.message this |}.

Definition NotConfiguredError : Completion DynalinksError :=
  subclass "NotConfiguredError" "NOT_CONFIGURED"
    (JStr "Dynalinks SDK has not been configured. Call Dynalinks.configure() first.").

Definition InvalidApiKeyError (message : JsValue) : Completion DynalinksError :=
  subclass "InvalidApiKeyError" "INVALID_API_KEY"
    (default_param message (JStr "Invalid API key format")).

Definition SimulatorError : Completion DynalinksError :=
  subclass "SimulatorError" "SIMULATOR"
    (JStr "Deferred deep linking is not available on simulator/emulator. Set allowSimulator: true in configuration for testing.").

Definition NetworkError (message : JsValue) : Completion DynalinksError :=
  subclass "NetworkError" "NETWORK_ERROR"
    (default_param message (JStr "Network request failed")).

Definition ServerError (message : JsValue) : Completion DynalinksError :=
  subclass "ServerError" "SERVER_ERROR"
    (default_param message (JStr "Server error")).

Definition InvalidResponseError : Completion DynalinksError :=
  subclass "InvalidResponseError" "INVALID_RESPONSE"
    (JStr "Received invalid response from server").

Definition NoMatchError : Completion DynalinksError :=
  subclass "NoMatchError" "NO_MATCH" (JStr "No matching link found").

Definition InstallReferrerUnavailableError : Completion DynalinksError :=
  subclass "InstallReferrerUnavailableError" "INSTALL_REFERRER_UNAVAILABLE"
    (JStr "Install referrer service is unavailable on this device").

Definition InstallReferrerTimeoutError : Completion DynalinksError :=
  subclass "InstallReferrerTimeoutError" "INSTALL_REFERRER_TIMEOUT"
    (JStr "Install referrer service timed out").

Definition InvalidUrlError (message : JsValue) : Completion DynalinksError :=
  subclass "InvalidUrlError" "INVALID_URL"
    (default_param message (JStr "Invalid URL format")).

(** [switch (code)] compares with [===]: a case label is met only by the
    string with the same characters. *)
Definition is_case (code : JsValue) (label : string) : bool :=
  match code with
  | JStr s => String.eqb s label
  | _ => false
  end.

(** Convert native error code to DynalinksError. *)
Definition fromNativeError (code message : JsValue) : Completion DynalinksError :=
  if is_case code "NOT_CONFIGURED" then NotConfiguredError
  else if is_case code "INVALID_API_KEY" then InvalidApiKeyError message
  else if is_case code "SIMULATOR" then SimulatorError
  else if is_case code "NETWORK_ERROR" then NetworkError message
  else if is_case code "SERVER_ERROR" then ServerError message
  else if is_case code "INVALID_RESPONSE" then InvalidResponseError
  else if is_case code "NO_MATCH" then NoMatchError
  else if is_case code "INSTALL_REFERRER_UNAVAILABLE" then InstallReferrerUnavailableError
  else if is_case code "INSTALL_REFERRER_TIMEOUT" then InstallReferrerTimeoutError
  else if is_case code "INVALID_URL" then InvalidUrlError message
  else if is_case code "INVALID_INTENT" then InvalidUrlError message
  else new_DynalinksError "UNKNOWN" (js_or message (JStr "Unknown error occurred")).

End Classes.

(** The case labels of [fromNativeError], in order. *)
Definition caseLabels : list string :=
  [ "NOT_CONFIGURED"; "INVALID_API_KEY"; "SIMULATOR"; "NETWORK_ERROR";
    "SERVER_ERROR"; "INVALID_RESPONSE"; "NO_MATCH";
    "INSTALL_REFERRER_UNAVAILABLE"; "INSTALL_REFERRER_TIMEOUT";
    "INVALID_URL"; "INVALID_INTENT" ].

(** The exported classes with the code each one carries, and the base class
    with the code [fromNativeError] gives it. *)
Definition taxonomy : list (string * string) :=
  [ ("NotConfiguredError", "NOT_CONFIGURED");
    ("InvalidApiKeyError", "INVALID_API_KEY");
    ("SimulatorError", "SIMULATOR");
    ("NetworkError", "NETWORK_ERROR");
    ("ServerError", "SERVER_ERROR");
    ("InvalidResponseError", "INVALID_RESPONSE");
    ("NoMatchError", "NO_MATCH");
    ("InstallReferrerUnavailableError", "INSTALL_REFERRER_UNAVAILABLE");
    ("InstallReferrerTimeoutError", "INSTALL_REFERRER_TIMEOUT");
    ("InvalidUrlError", "INVALID_URL");
    ("DynalinksError", "UNKNOWN") ].

Definition in_taxonomy (e : DynalinksError) : Prop :=
  (name e, code e) ∈ taxonomy.

End Errors.
Export Errors.

(** ** [types.ts] *)

Module Types.

Inductive DynalinksLogLevel : Type :=
| none
| error
| warning
| info
| debug.

(** The string each member of the enum is initialised with. *)
Definition logLevelValue (l : DynalinksLogLevel) : string :=
  match l with
  | none => "none"
  | error => "error"
  | warning => "warning"
  | info => "info"
  | debug => "debug"
  end.

Record DynalinksConfig : Type := {
  clientAPIKey : string;
  baseURL : option string;
  logLevel : option DynalinksLogLevel;
  allowSimulator : option bool
}.

End Types.
Export Types.

(** ** [DynalinksModule.ts]: the native module *)

Module DynalinksModule.

(** One call into the native module, with its argument. *)
Inductive NativeCall : Type :=
| Call_configure (config : JsValue)
| Call_checkForDeferredDeepLink
| Call_resolveLink (url : string).

(** The native module, as far as one call shows it: the promise it returns
    is fulfilled with a value or rejected with a value. *)
Definition NativeModule : Type := NativeCall -> Completion JsValue.

End DynalinksModule.
Export DynalinksModule.

(** ** [Dynalinks.ts]: the facade *)

Module Dynalinks.

(** What a rejected promise of the facade carries: an instance of a class
    of [errors.ts], or any other value. *)
Inductive Thrown : Type :=
| Typed (e : DynalinksError)
| Raw (v : JsValue).

(** How the promise returned by an [async] method settles. *)
Inductive Settled : Type :=
| Resolved (v : JsValue)
| Rejected (e : Thrown).

Section Facade.

Variable host : Host.
Variable native : NativeModule.

Local Notation "v .[ k ]" := (get host v k) (at level 1, left associativity, format "v .[ k ]").

(** Parse native result to DeepLinkResult. *)
Definition parseResult (nativeResult : JsValue) (isDeferred : bool) : Completion JsValue :=
  matched ← nativeResult.["matched"];
  confidence ← nativeResult.["confidence"];
  matchScore ← nativeResult.["match_score"];
  cond ← nativeResult.["link"];
  link ← (if truthy cond then
            id ← nativeResult.["link"] ≫= (λ l, l.["id"]);
            name ← nativeResult.["link"] ≫= (λ l, l.["name"]);
            path ← nativeResult.["link"] ≫= (λ l, l.["path"]);
            shortenedPath ← nativeResult.["link"] ≫= (λ l, l.["shortened_path"]);
            url ← nativeResult.["link"] ≫= (λ l, l.["url"]);
            fullUrl ← nativeResult.["link"] ≫= (λ l, l.["full_url"]);
            deepLinkValue ← nativeResult.["link"] ≫= (λ l, l.["deep_link_value"]);
            iosFallbackUrl ← nativeResult.["link"] ≫= (λ l, l.["ios_fallback_url"]);
            androidFallbackUrl ← nativeResult.["link"] ≫= (λ l, l.["android_fallback_url"]);
            enableForcedRedirect ← nativeResult.["link"] ≫= (λ l, l.["enable_forced_redirect"]);
            socialTitle ← nativeResult.["link"] ≫= (λ l, l.["social_title"]);
            socialDescription ← nativeResult.["link"] ≫= (λ l, l.["social_description"]);
            socialImageUrl ← nativeResult.["link"] ≫= (λ l, l.["social_image_url"]);
            clicks ← nativeResult.["link"] ≫= (λ l, l.["clicks"]);
            mret (object [ ("id", id);
                           ("name", name);
                           ("path", path);
                           ("shortenedPath", shortenedPath);
                           ("url", url);
                           ("fullUrl", fullUrl);
                           ("deepLinkValue", deepLinkValue);
                           ("iosFallbackUrl", iosFallbackUrl);
                           ("androidFallbackUrl", androidFallbackUrl);
                           ("enableForcedRedirect", enableForcedRedirect);
                           ("socialTitle", socialTitle);
                           ("socialDescription", socialDescription);
                           ("socialImageUrl", socialImageUrl);
                           ("clicks", clicks) ])
          else mret JUndefined);
  mret (object [ ("matched", js_or matched (JBool false));
                 ("confidence", confidence);
                 ("matchScore", matchScore);
                 ("link", link);
                 ("isDeferred", JBool isDeferred) ]).

(** The [catch (error: any)] clause, the same in the three methods:
    [throw fromNativeError(error.code || 'UNKNOWN', error.message)]. Reading
    a property of [error] may itself throw, and so may building the error
    from a message that has no string form; nothing catches that. *)
Definition catch_clause (err : JsValue) : Thrown :=
  match (code ← err.["code"];
         message ← err.["message"];
         fromNativeError host (js_or code (JStr "UNKNOWN")) message) with
  | Normal e => Typed e
  | Throw v => Raw v
  end.

(** [try { body } catch (error: any) { ... }] as the whole body of an
    [async] method. *)
Definition try_catch (body : Completion JsValue) : Settled :=
  match body with
  | Normal v => Resolved v
  | Throw err => Rejected (catch_clause err)
  end.

(** The argument [configure] builds for the native module. *)
Definition configure_payload (config : DynalinksConfig) : JsValue :=
  object [ ("clientAPIKey", JStr (clientAPIKey config));
           ("baseURL", optional JStr (baseURL config));
           ("logLevel", js_or (optional (λ l, JStr (logLevelValue l)) (logLevel config))
                              (JStr (logLevelValue error)));
           ("allowSimulator", js_or (optional JBool (allowSimulator config)) (JBool false)) ].

(** Each method returns the calls it made into the native module, in order,
    and the way its promise settles. *)

(** Configure the Dynalinks SDK. *)
Definition configure (config : DynalinksConfig) : list NativeCall * Settled :=
  let call := Call_configure (configure_payload config) in
  ([call], try_catch (native call ≫= λ _, mret JUndefined)).

(** Check for a deferred deep link. *)
Definition checkForDeferredDeepLink : list NativeCall * Settled :=
  let call := Call_checkForDeferredDeepLink in
  ([call], try_catch (result ← native call; parseResult result true)).

(** Resolve a URL to link data. *)
Definition resolveLink (url : string) : list NativeCall * Settled :=
  let call := Call_resolveLink url in
  ([call], try_catch (result ← native call; parseResult result false)).

End Facade.

End Dynalinks.
Export Dynalinks.

(** ** [errors.ts], the earlier version

    Seven classes under [DynalinksError], written as in the later version,
    and a [fromNativeError] with seven case labels. *)

Module EarlierErrors.

Section Classes.

Variable host : Host.

Definition NotConfiguredError : Completion DynalinksError :=
  subclass host "NotConfiguredError" "NOT_CONFIGURED"
    (JStr "Dynalinks SDK has not been configured. Call Dynalinks.configure() first.").

Definition InvalidApiKeyError (message : JsValue) : Completion DynalinksError :=
  subclass host "InvalidApiKeyError" "INVALID_API_KEY"
    (default_param message (JStr "Invalid API key format")).

Definition SimulatorError : Completion DynalinksError :=
  subclass host "SimulatorError" "SIMULATOR"
    (JStr "Deferred deep linking is not available on simulator/emulator. Set allowSimulator: true in configuration for testing.").

Definition NetworkError (message : JsValue) : Completion DynalinksError :=
  subclass host "NetworkError" "NETWORK_ERROR"
    (default_param message (JStr "Network request failed")).

Definition ServerError (message : JsValue) : Completion DynalinksError :=
  subclass host "ServerError" "SERVER_ERROR"
    (default_param message (JStr "Server error")).

Definition InvalidResponseError : Completion DynalinksError :=
  subclass host "InvalidResponseError" "INVALID_RESPONSE"
    (JStr "Received invalid response from server").

Definition NoMatchError : Completion DynalinksError :=
  subclass host "NoMatchError" "NO_MATCH" (JStr "No matching link found").

(** Convert native error code to DynalinksError. *)
Definition fromNativeError (code message : JsValue) : Completion DynalinksError :=
  if is_case code "NOT_CONFIGURED" then NotConfiguredError
  else if is_case code "INVALID_API_KEY" then InvalidApiKeyError message
  else if is_case code "SIMULATOR" then SimulatorError
  else if is_case code "NETWORK_ERROR" then NetworkError message
  else if is_case code "SERVER_ERROR" then ServerError message
  else if is_case code "INVALID_RESPONSE" then InvalidResponseError
  else if is_case code "NO_MATCH" then NoMatchError
  else new_DynalinksError host "UNKNOWN" (js_or message (JStr "Unknown error occurred")).

End Classes.

(** The case labels only the later version has. *)
Definition laterLabels : list string :=
  [ "INSTALL_REFERRER_UNAVAILABLE"; "INSTALL_REFERRER_TIMEOUT";
    "INVALID_URL"; "INVALID_INTENT" ].

End EarlierErrors.

(** ** [ExpoDynalinksSdkModule.kt]: the Android native module

    The module stands between the bridge and the Dynalinks SDK for Android
    ([com.dynalinks.sdk]). The SDK, [android.net.Uri], the React context
    and the two functions of [kotlin.text] the module calls are not part of
    the repository: they are the parameters of the section below. Each
    function returns the calls it made into the SDK, in order, and its
    result or the exception it throws. *)

Module Android.

(** A value of type [Any?] in a map that crosses the bridge. *)
Inductive Any : Type :=
| ANull
| AString (s : string)
| ABoolean (b : bool)
| ANumber (n : Z)
| AMap (entries : gmap string Any).

Definition is_null (v : Any) : bool :=
  match v with
  | ANull => true
  | _ => false
  end.

(** [map[key]]: [null] when the key is not there. *)
Definition index (map : gmap string Any) (key : string) : Any :=
  default ANull (map !! key).

(** [v as? String] and [v as? Boolean] *)
Definition as_String (v : Any) : option string :=
  match v with
  | AString s => Some s
  | _ => None
  end.

Definition as_Boolean (v : Any) : option bool :=
  match v with
  | ABoolean b => Some b
  | _ => None
  end.

(** [mapOf(k1 to v1, ...)] and [mutableMapOf(...)]: a later pair replaces an
    earlier one with the same key. *)
Definition mapOf (pairs : list (string * Any)) : gmap string Any :=
  foldl (λ map kv, <[kv.1 := kv.2]> map) ∅ pairs.

(** [map.filterValues { it != null }] *)
Definition filterValues_not_null (map : gmap string Any) : gmap string Any :=
  filter (λ kv, is_null kv.2 = false) map.

(** What the module uses of [com.dynalinks.sdk]. *)
Module Sdk.

Inductive DynalinksLogLevel : Type :=
| NONE
| ERROR
| WARNING
| INFO
| DEBUG.

(** The subclasses of the sealed class [DynalinksError], as the exhaustive
    [when] of [convertError] lists them. *)
Inductive ErrorClass : Type :=
| NotConfigured
| InvalidAPIKey
| Emulator
| InvalidIntent
| NetworkError
| InvalidResponse
| ServerError
| NoMatch
| InstallReferrerUnavailable
| InstallReferrerTimeout.

Record DynalinksError : Type := {
  errorClass : ErrorClass;
  message : option string
}.

(** An enum constant, of which the module reads the [name]. *)
Record Confidence : Type := { name : string }.

(** The module hands every property on without looking at it. ([linkName]
    is the property [name].) *)
Record LinkData : Type := {
  id : Any;
  linkName : Any;
  path : Any;
  shortenedPath : Any;
  url : Any;
  fullUrl : Any;
  deepLinkValue : Any;
  androidFallbackUrl : Any;
  iosFallbackUrl : Any;
  enableForcedRedirect : Any;
  socialTitle : Any;
  socialDescription : Any;
  socialImageUrl : Any;
  clicks : Any
}.

Record DeepLinkResult : Type := {
  matched : Any;
  confidence : option Confidence;
  matchScore : Any;
  link : option LinkData
}.

End Sdk.

(** An exception that is neither a [CodedException] nor a
    [DynalinksError]. *)
Record Exception : Type := { exceptionMessage : option string }.

(** [expo.modules.kotlin.exception.CodedException], built with a code, a
    message and a cause, or with a message alone. *)
Inductive CodedException : Type :=
| CodedException_coded (code message : string) (cause : option Exception)
| CodedException_message (message : string).

Inductive Throwable : Type :=
| Thrown_Coded (e : CodedException)
| Thrown_Sdk (e : Sdk.DynalinksError)
| Thrown_Other (e : Exception).

Inductive Result (A : Type) : Type :=
| Returns (a : A)
| Throws (t : Throwable).
Arguments Returns {A} a.
Arguments Throws {A} t.

(** A string template [${s}] over a [String?]. *)
Definition template (s : option string) : string := default "null" s.

Section Module_.

Variable Context : Type.
Variable Uri : Type.

(** [appContext.reactContext] *)
Variable reactContext : option Context.

(** [Uri.parse], [uri.scheme], [uri.host] *)
Variable Uri_parse : string → Uri.
Variable scheme : Uri → option string.
Variable host : Uri → option string.

(** [isBlank] and [lowercase] of [kotlin.text] *)
Variable isBlank : string → bool.
Variable lowercase : string → string.

(** A call of [Dynalinks.configure], [Dynalinks.checkForDeferredDeepLink]
    or [Dynalinks.handleAppLink], with its arguments; [baseURL] is [None]
    when the argument is left out. *)
Inductive SdkCall : Type :=
| Dynalinks_configure (context : Context) (clientAPIKey : string)
    (baseURL : option string) (logLevel : Sdk.DynalinksLogLevel) (allowEmulator : bool)
| Dynalinks_checkForDeferredDeepLink
| Dynalinks_handleAppLink (uri : Uri).

(** What the SDK answers. *)
Variable sdk_configure : SdkCall → Result unit.
Variable sdk_checkForDeferredDeepLink : Result Sdk.DeepLinkResult.
Variable sdk_handleAppLink : Uri → Result Sdk.DeepLinkResult.

Definition isNullOrEmpty (s : option string) : bool :=
  match s with
  | None => true
  | Some s => String.eqb s ""
  end.

(** [s?.takeIf { it.isNotBlank() }] *)
Definition takeIf_isNotBlank (s : option string) : option string :=
  match s with
  | Some s => if isBlank s then None else Some s
  | None => None
  end.

Definition convertError (error : Sdk.DynalinksError) : CodedException :=
  let code :=
    match Sdk.errorClass error with
    | Sdk.NotConfigured => "NOT_CONFIGURED"
    | Sdk.InvalidAPIKey => "INVALID_API_KEY"
    | Sdk.Emulator => "SIMULATOR"
    | Sdk.InvalidIntent => "INVALID_URL"
    | Sdk.NetworkError => "NETWORK_ERROR"
    | Sdk.InvalidResponse => "INVALID_RESPONSE"
    | Sdk.ServerError => "SERVER_ERROR"
    | Sdk.NoMatch => "NO_MATCH"
    | Sdk.InstallReferrerUnavailable => "INSTALL_REFERRER_UNAVAILABLE"
    | Sdk.InstallReferrerTimeout => "INSTALL_REFERRER_TIMEOUT"
    end in
  CodedException_coded code (default "Unknown error" (Sdk.message error)) None.

Definition linkDataPairs (linkData : Sdk.LinkData) : list (string * Any) :=
  [ ("id", Sdk.id linkData);
    ("name", Sdk.linkName linkData);
    ("path", Sdk.path linkData);
    ("shortened_path", Sdk.shortenedPath linkData);
    ("url", Sdk.url linkData);
    ("full_url", Sdk.fullUrl linkData);
    ("deep_link_value", Sdk.deepLinkValue linkData);
    ("android_fallback_url", Sdk.androidFallbackUrl linkData);
    ("ios_fallback_url", Sdk.iosFallbackUrl linkData);
    ("enable_forced_redirect", Sdk.enableForcedRedirect linkData);
    ("social_title", Sdk.socialTitle linkData);
    ("social_description", Sdk.socialDescription linkData);
    ("social_image_url", Sdk.socialImageUrl linkData);
    ("clicks", Sdk.clicks linkData) ].

Definition encodeLinkData (linkData : Sdk.LinkData) : gmap string Any :=
  filterValues_not_null (mapOf (linkDataPairs linkData)).

Definition encodeResult (result : Sdk.DeepLinkResult) (isDeferred : bool) : gmap string Any :=
  let map := mapOf [ ("matched", Sdk.matched result);
                     ("is_deferred", ABoolean isDeferred) ] in
  let map :=
    match Sdk.confidence result with
    | Some it => <["confidence" := AString (lowercase (Sdk.name it))]> map
    | None => map
    end in
  let map :=
    if is_null (Sdk.matchScore result) then map
    else <["match_score" := Sdk.matchScore result]> map in
  match Sdk.link result with
  | Some link => <["link" := AMap (encodeLinkData link)]> map
  | None => map
  end.

(** [try { body } catch (e: DynalinksError) { throw convertError(e) }] *)
Definition catch_DynalinksError {A : Type} (body : Result A) : Result A :=
  match body with
  | Throws (Thrown_Sdk e) => Throws (Thrown_Coded (convertError e))
  | _ => body
  end.

Definition logLevel_of (logLevelString : string) : Sdk.DynalinksLogLevel :=
  if String.eqb logLevelString "none" then Sdk.NONE
  else if String.eqb logLevelString "error" then Sdk.ERROR
  else if String.eqb logLevelString "warning" then Sdk.WARNING
  else if String.eqb logLevelString "info" then Sdk.INFO
  else if String.eqb logLevelString "debug" then Sdk.DEBUG
  else Sdk.ERROR.

Definition configure (config : gmap string Any) : list SdkCall * Result unit :=
  match reactContext with
  | None => ([], Throws (Thrown_Coded (CodedException_message "Context not available")))
  | Some context =>
    match takeIf_isNotBlank (as_String (index config "clientAPIKey")) with
    | None =>
        ([], Throws (Thrown_Coded
               (CodedException_coded "INVALID_API_KEY" "Missing or empty clientAPIKey" None)))
    | Some clientAPIKey =>
      let logLevelString := default "error" (as_String (index config "logLevel")) in
      let allowSimulator := default false (as_Boolean (index config "allowSimulator")) in
      let logLevel := logLevel_of logLevelString in
      match takeIf_isNotBlank (as_String (index config "baseURL")) with
      | Some baseURLString =>
          let baseUri := Uri_parse baseURLString in
          if isNullOrEmpty (scheme baseUri) || isNullOrEmpty (host baseUri) then
            ([], catch_DynalinksError
                   (Throws (Thrown_Coded
                      (CodedException_coded "INVALID_CONFIG" "Invalid baseURL format" None))))
          else
            let call := Dynalinks_configure context clientAPIKey (Some baseURLString)
                          logLevel allowSimulator in
            ([call], catch_DynalinksError (sdk_configure call))
      | None =>
          let call := Dynalinks_configure context clientAPIKey None logLevel allowSimulator in
          ([call], catch_DynalinksError (sdk_configure call))
      end
    end
  end.

Definition checkForDeferredDeepLink : list SdkCall * Result (gmap string Any) :=
  ([Dynalinks_checkForDeferredDeepLink],
   catch_DynalinksError
     match sdk_checkForDeferredDeepLink with
     | Returns result => Returns (encodeResult result true)
     | Throws t => Throws t
     end).

(** The three [catch] clauses of [resolveLink], in their order. *)
Definition catch_all {A : Type} (body : Result A) : Result A :=
  match body with
  | Returns a => Returns a
  | Throws (Thrown_Coded e) => Throws (Thrown_Coded e)
  | Throws (Thrown_Sdk e) => Throws (Thrown_Coded (convertError e))
  | Throws (Thrown_Other e) =>
      Throws (Thrown_Coded
        (CodedException_coded "UNKNOWN"
           ("Unexpected error: " ++ template (exceptionMessage e)) (Some e)))
  end.

Definition resolveLink (url : string) : list SdkCall * Result (gmap string Any) :=
  let uri := Uri_parse url in
  if isNullOrEmpty (scheme uri) || isNullOrEmpty (host uri) then
    ([], catch_all
           (Throws (Thrown_Coded
              (CodedException_coded "INVALID_URL" "URL must have a valid scheme and host" None))))
  else
    ([Dynalinks_handleAppLink uri],
     catch_all
       match sdk_handleAppLink uri with
       | Returns result => Returns (encodeResult result false)
       | Throws t => Throws t
       end).

End Module_.

Arguments Dynalinks_configure {Context Uri} context clientAPIKey baseURL logLevel allowEmulator.
Arguments Dynalinks_checkForDeferredDeepLink {Context Uri}.
Arguments Dynalinks_handleAppLink {Context Uri} uri.
Arguments configure {Context Uri} reactContext Uri_parse scheme host isBlank sdk_configure config.
Arguments checkForDeferredDeepLink {Context Uri} lowercase sdk_checkForDeferredDeepLink.
Arguments resolveLink {Context Uri} Uri_parse scheme host lowercase sdk_handleAppLink url.

(** The error classes that only the later [errors.ts] has a case label
    for. *)
Definition needs_later_errors (c : Sdk.ErrorClass) : bool :=
  match c with
  | Sdk.InvalidIntent | Sdk.InstallReferrerUnavailable | Sdk.InstallReferrerTimeout => true
  | _ => false
  end.

(** The code a [CodedException] carries, when it was given one. *)
Definition code_of (e : CodedException) : option string :=
  match e with
  | CodedException_coded code _ _ => Some code
  | CodedException_message _ => None
  end.

Definition message_of (e : CodedException) : string :=
  match e with
  | CodedException_coded _ message _ => message
  | CodedException_message message => message
  end.

End Android.

(** ** [ExpoDynalinksSdkModule.swift]: the iOS native module

    The later of the two versions in the repository. The Dynalinks SDK for
    iOS, Foundation's [URL] and [trimmingCharacters], and the descriptions
    errors give of themselves are parameters. Each function returns the
    calls it made into the SDK and its result or the error it throws. *)

Module IOS.

(** A value of type [Any?] in a dictionary that crosses the bridge. *)
Inductive Any : Type :=
| ANil
| AString (s : string)
| ABool (b : bool)
| ANumber (n : Z)
| ADictionary (entries : gmap string Any).

Definition as_String (v : option Any) : option string :=
  match v with
  | Some (AString s) => Some s
  | _ => None
  end.

Definition as_Bool (v : option Any) : option bool :=
  match v with
  | Some (ABool b) => Some b
  | _ => None
  end.

(** A dictionary literal. *)
Definition dictionary (pairs : list (string * Any)) : gmap string Any :=
  foldl (λ dict kv, <[kv.1 := kv.2]> dict) ∅ pairs.

(** What the module uses of [DynalinksSDK]. *)
Module Sdk.

Inductive DynalinksLogLevel : Type :=
| none
| error
| warning
| info
| debug.

(** The cases of the enum [DynalinksError], as the exhaustive [switch] of
    [convertError] lists them, with the associated values it binds. *)
Inductive DynalinksError : Type :=
| notConfigured
| invalidAPIKey (msg : string)
| simulator
| networkError
| invalidResponse
| serverError (statusCode : Z) (msg : option string)
| noMatch.

(** An enum constant, of which the module reads the [rawValue]. *)
Record Confidence : Type := { rawValue : Any }.

(** The properties the module reads; of those that are URLs it takes the
    [absoluteString]. *)
Record LinkData (URL : Type) : Type := {
  id : Any;
  name : Any;
  path : Any;
  shortenedPath : Any;
  url : option URL;
  fullURL : option URL;
  deepLinkValue : Any;
  iosDeferredDeepLinkingEnabled : Any;
  iosFallbackURL : option URL;
  androidFallbackURL : option URL;
  enableForcedRedirect : Any;
  socialTitle : Any;
  socialDescription : Any;
  socialImageURL : option URL;
  clicks : Any
}.
Arguments id {URL} _.
Arguments name {URL} _.
Arguments path {URL} _.
Arguments shortenedPath {URL} _.
Arguments url {URL} _.
Arguments fullURL {URL} _.
Arguments deepLinkValue {URL} _.
Arguments iosDeferredDeepLinkingEnabled {URL} _.
Arguments iosFallbackURL {URL} _.
Arguments androidFallbackURL {URL} _.
Arguments enableForcedRedirect {URL} _.
Arguments socialTitle {URL} _.
Arguments socialDescription {URL} _.
Arguments socialImageURL {URL} _.
Arguments clicks {URL} _.

Record DeepLinkResult (URL : Type) : Type := {
  matched : Any;
  confidence : option Confidence;
  matchScore : option Any;
  link : option (LinkData URL)
}.
Arguments matched {URL} _.
Arguments confidence {URL} _.
Arguments matchScore {URL} _.
Arguments link {URL} _.

End Sdk.

(** [ExpoModulesCore.Exception(name:description:)] *)
Record Exception : Type := {
  name : string;
  description : string
}.

Section Module_.

Variable URL : Type.
Variable OtherError : Type.

(** What can be thrown: an [Exception] of the module, an error of the SDK,
    or any other [Error]. *)
Inductive Error : Type :=
| Error_Exception (e : Exception)
| Error_Sdk (e : Sdk.DynalinksError)
| Error_Other (e : OtherError).

Inductive Result (A : Type) : Type :=
| Returns (a : A)
| Throws (e : Error).
Arguments Returns {A} a.
Arguments Throws {A} e.

(** [URL(string:)] and [url.absoluteString] *)
Variable URL_string : string → option URL.
Variable absoluteString : URL → string.

(** [s.trimmingCharacters(in: .whitespacesAndNewlines)] *)
Variable trimmed : string → string.

(** [error.errorDescription] of an SDK error and [error.localizedDescription]
    of any error *)
Variable errorDescription : Sdk.DynalinksError → option string.
Variable localizedDescription : Error → string.

(** A call of [Dynalinks.configure], [Dynalinks.checkForDeferredDeepLink]
    or [Dynalinks.handleUniversalLink]; [baseURL] is [None] when the
    argument is left out. *)
Inductive SdkCall : Type :=
| Dynalinks_configure (clientAPIKey : string) (baseURL : option URL)
    (logLevel : Sdk.DynalinksLogLevel) (allowSimulator : bool)
| Dynalinks_checkForDeferredDeepLink
| Dynalinks_handleUniversalLink (url : URL).

Variable sdk_configure : SdkCall → Result unit.
Variable sdk_checkForDeferredDeepLink : Result (Sdk.DeepLinkResult URL).
Variable sdk_handleUniversalLink : URL → Result (Sdk.DeepLinkResult URL).

(** [url?.absoluteString] *)
Definition optional_absoluteString (url : option URL) : Any :=
  match url with
  | Some url => AString (absoluteString url)
  | None => ANil
  end.

Definition linkDataPairs (link : Sdk.LinkData URL) : list (string * Any) :=
  [ ("id", Sdk.id link);
    ("name", Sdk.name link);
    ("path", Sdk.path link);
    ("shortened_path", Sdk.shortenedPath link);
    ("url", optional_absoluteString (Sdk.url link));
    ("full_url", optional_absoluteString (Sdk.fullURL link));
    ("deep_link_value", Sdk.deepLinkValue link);
    ("ios_deferred_deep_linking_enabled", Sdk.iosDeferredDeepLinkingEnabled link);
    ("ios_fallback_url", optional_absoluteString (Sdk.iosFallbackURL link));
    ("android_fallback_url", optional_absoluteString (Sdk.androidFallbackURL link));
    ("enable_forced_redirect", Sdk.enableForcedRedirect link);
    ("social_title", Sdk.socialTitle link);
    ("social_description", Sdk.socialDescription link);
    ("social_image_url", optional_absoluteString (Sdk.socialImageURL link));
    ("clicks", Sdk.clicks link) ].

Definition encodeLinkData (link : Sdk.LinkData URL) : gmap string Any :=
  dictionary (linkDataPairs link).

Definition encodeResult (result : Sdk.DeepLinkResult URL) (isDeferred : bool) : gmap string Any :=
  let dict := dictionary [ ("matched", Sdk.matched result);
                           ("is_deferred", ABool isDeferred) ] in
  let dict :=
    match Sdk.confidence result with
    | Some confidence => <["confidence" := Sdk.rawValue confidence]> dict
    | None => dict
    end in
  let dict :=
    match Sdk.matchScore result with
    | Some matchScore => <["match_score" := matchScore]> dict
    | None => dict
    end in
  match Sdk.link result with
  | Some link => <["link" := ADictionary (encodeLinkData link)]> dict
  | None => dict
  end.

Definition convertError (error : Sdk.DynalinksError) : Exception :=
  let '(code, message) :=
    match error with
    | Sdk.notConfigured =>
        ("NOT_CONFIGURED", default "SDK not configured" (errorDescription error))
    | Sdk.invalidAPIKey msg =>
        ("INVALID_API_KEY", msg)
    | Sdk.simulator =>
        ("SIMULATOR", default "Not available on simulator" (errorDescription error))
    | Sdk.networkError =>
        ("NETWORK_ERROR", default "Network error" (errorDescription error))
    | Sdk.invalidResponse =>
        ("INVALID_RESPONSE", default "Invalid response" (errorDescription error))
    | Sdk.serverError statusCode msg =>
        ("SERVER_ERROR", default ("Server error: " ++ pretty statusCode) msg)
    | Sdk.noMatch =>
        ("NO_MATCH", default "No match" (errorDescription error))
    end in
  {| name := code; description := message |}.

(** [do { body } catch let error as DynalinksError { throw convertError(error) }
    catch { throw Exception(name: "UNKNOWN", ...) }]: the second clause
    takes every error the first does not, the module's own exceptions
    among them. *)
Definition do_catch {A : Type} (body : Result A) : Result A :=
  match body with
  | Returns a => Returns a
  | Throws (Error_Sdk e) => Throws (Error_Exception (convertError e))
  | Throws e =>
      Throws (Error_Exception
        {| name := "UNKNOWN";
           description := "Unexpected error: " ++ localizedDescription e |})
  end.

Definition logLevel_of (logLevelString : string) : Sdk.DynalinksLogLevel :=
  if String.eqb logLevelString "none" then Sdk.none
  else if String.eqb logLevelString "error" then Sdk.error
  else if String.eqb logLevelString "warning" then Sdk.warning
  else if String.eqb logLevelString "info" then Sdk.info
  else if String.eqb logLevelString "debug" then Sdk.debug
  else Sdk.error.

Definition configure (config : gmap string Any) : list SdkCall * Result unit :=
  match as_String (config !! "clientAPIKey") with
  | None =>
      ([], Throws (Error_Exception
             {| name := "INVALID_API_KEY";
                description := "Missing clientAPIKey in configuration" |}))
  | Some clientAPIKeyRaw =>
    let clientAPIKey := trimmed clientAPIKeyRaw in
    if String.eqb clientAPIKey "" then
      ([], Throws (Error_Exception
             {| name := "INVALID_API_KEY";
                description := "Invalid clientAPIKey in configuration: API key must be a non-empty string" |}))
    else
      let logLevelString := default "error" (as_String (config !! "logLevel")) in
      let allowSimulator := default false (as_Bool (config !! "allowSimulator")) in
      let logLevel := logLevel_of logLevelString in
      let without_baseURL :=
        let call := Dynalinks_configure clientAPIKey None logLevel allowSimulator in
        ([call], do_catch (sdk_configure call)) in
      match trimmed <$> as_String (config !! "baseURL") with
      | Some baseURLString =>
          if String.eqb baseURLString "" then without_baseURL
          else
            match URL_string baseURLString with
            | None =>
                ([], do_catch
                       (Throws (Error_Exception
                          {| name := "INVALID_CONFIG";
                             description := "Invalid baseURL in configuration" |})))
            | Some baseURL =>
                let call := Dynalinks_configure clientAPIKey (Some baseURL)
                              logLevel allowSimulator in
                ([call], do_catch (sdk_configure call))
            end
      | None => without_baseURL
      end
  end.

Definition checkForDeferredDeepLink : list SdkCall * Result (gmap string Any) :=
  ([Dynalinks_checkForDeferredDeepLink],
   do_catch
     match sdk_checkForDeferredDeepLink with
     | Returns result => Returns (encodeResult result true)
     | Throws e => Throws e
     end).

Definition resolveLink (url : string) : list SdkCall * Result (gmap string Any) :=
  match URL_string url with
  | None =>
      ([], Throws (Error_Exception
             {| name := "INVALID_URL"; description := "Invalid URL format" |}))
  | Some urlObj =>
      ([Dynalinks_handleUniversalLink urlObj],
       do_catch
         match sdk_handleUniversalLink urlObj with
         | Returns result => Returns (encodeResult result false)
         | Throws e => Throws e
         end)
  end.

End Module_.

Arguments Returns {OtherError A} a.
Arguments Throws {OtherError A} e.
Arguments Error_Exception {OtherError} e.
Arguments Error_Sdk {OtherError} e.
Arguments Error_Other {OtherError} e.
Arguments Dynalinks_configure {URL} clientAPIKey baseURL logLevel allowSimulator.
Arguments Dynalinks_checkForDeferredDeepLink {URL}.
Arguments Dynalinks_handleUniversalLink {URL} url.

(** The names the module gives to exceptions of its own making. *)
Definition ownNames : list string :=
  [ "INVALID_API_KEY"; "INVALID_CONFIG"; "INVALID_URL"; "UNKNOWN" ].

End IOS.

(** ** Shapes and tables the statements below refer to *)

(** The value [parseResult] returns when it returns: every property is read
    off the native result, or off its [link]. *)
Definition parsed_link (host : Host) (link : JsValue) : JsValue :=
  if truthy link then
    object [ ("id", read host link "id");
             ("name", read host link "name");
             ("path", read host link "path");
             ("shortenedPath", read host link "shortened_path");
             ("url", read host link "url");
             ("fullUrl", read host link "full_url");
             ("deepLinkValue", read host link "deep_link_value");
             ("iosFallbackUrl", read host link "ios_fallback_url");
             ("androidFallbackUrl", read host link "android_fallback_url");
             ("enableForcedRedirect", read host link "enable_forced_redirect");
             ("socialTitle", read host link "social_title");
             ("socialDescription", read host link "social_description");
             ("socialImageUrl", read host link "social_image_url");
             ("clicks", read host link "clicks") ]
  else JUndefined.

Definition parsed (host : Host) (nativeResult : JsValue) (isDeferred : bool) : JsValue :=
  object [ ("matched", js_or (read host nativeResult "matched") (JBool false));
           ("confidence", read host nativeResult "confidence");
           ("matchScore", read host nativeResult "match_score");
           ("link", parsed_link host (read host nativeResult "link"));
           ("isDeferred", JBool isDeferred) ].


Definition linkDataKeys : gset string :=
  list_to_set
    [ "id"; "name"; "path"; "shortenedPath"; "url"; "fullUrl"; "deepLinkValue";
      "iosFallbackUrl"; "androidFallbackUrl"; "enableForcedRedirect";
      "socialTitle"; "socialDescription"; "socialImageUrl"; "clicks" ].








(** The codes of the fixed table, without the synonym. *)
Definition nativeCodes : list string :=
  [ "NOT_CONFIGURED"; "INVALID_API_KEY"; "SIMULATOR"; "NETWORK_ERROR";
    "SERVER_ERROR"; "INVALID_RESPONSE"; "NO_MATCH";
    "INSTALL_REFERRER_UNAVAILABLE"; "INSTALL_REFERRER_TIMEOUT"; "INVALID_URL" ].

(** The codes whose class has a constructor with a [message] parameter. *)
Definition dynamicMessageCodes : list string :=
  [ "INVALID_API_KEY"; "NETWORK_ERROR"; "SERVER_ERROR"; "INVALID_URL" ].

(** Native [link] key and normalized field, pair by pair. *)
Definition linkKeyMapping : list (string * string) :=
  [ ("id", "id"); ("name", "name"); ("path", "path");
    ("shortened_path", "shortenedPath"); ("url", "url");
    ("full_url", "fullUrl"); ("deep_link_value", "deepLinkValue");
    ("ios_fallback_url", "iosFallbackUrl");
    ("android_fallback_url", "androidFallbackUrl");
    ("enable_forced_redirect", "enableForcedRedirect");
    ("social_title", "socialTitle");
    ("social_description", "socialDescription");
    ("social_image_url", "socialImageUrl"); ("clicks", "clicks") ].

(** ** Concrete configurations and native modules *)

Definition config_of_key (key : string) : DynalinksConfig :=
  {| clientAPIKey := key; baseURL := None; logLevel := None; allowSimulator := None |}.

(** A native module that fulfils every call with the given value. *)
Definition fulfilling (v : JsValue) : NativeModule := λ _, Normal v.

(** A native module that rejects every call with the given value. *)
Definition rejecting (err : JsValue) : NativeModule := λ _, Throw err.

Definition native_error (code message : string) : JsValue :=
  object [ ("code", JStr code); ("message", JStr message) ].

(** A [LinkData] in which at most [id] and [deepLinkValue] are set: the
    twelve other properties hold [undefined]. *)
Definition linkData_of (id deepLinkValue : JsValue) : JsValue :=
  object [ ("id", id);
           ("name", JUndefined);
           ("path", JUndefined);
           ("shortenedPath", JUndefined);
           ("url", JUndefined);
           ("fullUrl", JUndefined);
           ("deepLinkValue", deepLinkValue);
           ("iosFallbackUrl", JUndefined);
           ("androidFallbackUrl", JUndefined);
           ("enableForcedRedirect", JUndefined);
           ("socialTitle", JUndefined);
           ("socialDescription", JUndefined);
           ("socialImageUrl", JUndefined);
           ("clicks", JUndefined) ].

(** A native result that carries flags of its own under both spellings. *)
Definition payload_with_flags (flag : bool) : JsValue :=
  object [ ("matched", JBool true);
           ("is_deferred", JBool flag);
           ("isDeferred", JBool flag) ].

(** The native module of a device on which every call succeeds, and whose
    results say the opposite of the method called about being deferred. *)
Definition contrary_native : NativeModule :=
  λ call,
    match call with
    | Call_configure _ => Normal JUndefined
    | Call_checkForDeferredDeepLink => Normal (payload_with_flags false)
    | Call_resolveLink _ => Normal (payload_with_flags true)
    end.

(** ** Further tables *)

(** The codes whose class has a constructor without parameters. *)
Definition fixedMessageCodes : list string :=
  [ "NOT_CONFIGURED"; "SIMULATOR"; "INVALID_RESPONSE"; "NO_MATCH";
    "INSTALL_REFERRER_UNAVAILABLE"; "INSTALL_REFERRER_TIMEOUT" ].

(** The case labels that pass the message on, each with the default of the
    [message] parameter of the class it builds. *)
Definition dynamicDefaults : list (string * string) :=
  [ ("INVALID_API_KEY", "Invalid API key format");
    ("NETWORK_ERROR", "Network request failed");
    ("SERVER_ERROR", "Server error");
    ("INVALID_URL", "Invalid URL format");
    ("INVALID_INTENT", "Invalid URL format") ].

(** The property names of the object [configure] builds. *)
Definition configureKeys : gset string :=
  list_to_set [ "clientAPIKey"; "baseURL"; "logLevel"; "allowSimulator" ].

(** The properties [parseResult] reads off the native result, and off its
    [link]. *)
Definition resultKeysRead : list string :=
  [ "matched"; "confidence"; "match_score"; "link" ].

Definition linkKeysRead : list string := linkKeyMapping.*1.

(** The [UNKNOWN] error with a given message string, the placeholder
    standing in for the empty one. *)
Definition unknown_error (msg : string) : DynalinksError :=
  {| name := "DynalinksError"; code := "UNKNOWN";
     message := if String.eqb msg "" then "Unknown error occurred" else msg |}.

(** What a second pass of [parseResult] leaves of a native [link]: the five
    properties whose name is the same in both spellings. *)
Definition linkData_after_two_passes (host : Host) (link : JsValue) : JsValue :=
  object [ ("id", read host link "id");
           ("name", read host link "name");
           ("path", read host link "path");
           ("shortenedPath", JUndefined);
           ("url", read host link "url");
           ("fullUrl", JUndefined);
           ("deepLinkValue", JUndefined);
           ("iosFallbackUrl", JUndefined);
           ("androidFallbackUrl", JUndefined);
           ("enableForcedRedirect", JUndefined);
           ("socialTitle", JUndefined);
           ("socialDescription", JUndefined);
           ("socialImageUrl", JUndefined);
           ("clicks", read host link "clicks") ].

(** What [fromNativeError] does with the message [m] is to return an
    error with the code [c]; or else, [m] having no string form, to throw
    what its conversion throws. *)
Definition answers_with_code
    (host : Host) (m : JsValue) (answer : Completion DynalinksError) (c : string) : Prop :=
  match answer with
  | Normal e => code e = c
  | Throw t => ToString host m = Throw t
  end.

(** When the native module rejects the call a method makes with [err],
    that method rejects with [t]; for the three methods. *)
Definition rejection_becomes (host : Host) (native : NativeModule)
    (config : DynalinksConfig) (url : string) (err : JsValue) (t : Thrown) : Prop :=
  (native (Call_configure (configure_payload config)) = Throw err →
   (configure host native config).2 = Rejected t) ∧
  (native Call_checkForDeferredDeepLink = Throw err →
   (checkForDeferredDeepLink host native).2 = Rejected t) ∧
  (native (Call_resolveLink url) = Throw err →
   (resolveLink host native url).2 = Rejected t).

(** ** A concrete device for the Android module

    Strings stand for parsed URIs; only [https://] URIs have a scheme and
    a host; only the empty string is blank; the SDK accepts every call and
    reports a match without a link. *)

Module AndroidExample.

Definition scheme (uri : string) : option string :=
  if String.prefix "https://" uri then Some "https" else None.

Definition host (uri : string) : option string :=
  if String.prefix "https://" uri then Some "example.dynalinks.app" else None.

Definition isBlank (s : string) : bool := String.eqb s "".

Definition lowercase (s : string) : string := s.

Definition sdk_result : Android.Sdk.DeepLinkResult :=
  {| Android.Sdk.matched := Android.ABoolean true;
     Android.Sdk.confidence := Some {| Android.Sdk.name := "high" |};
     Android.Sdk.matchScore := Android.ANull;
     Android.Sdk.link := None |}.

Definition sdk_configure (call : Android.SdkCall unit string) : Android.Result unit :=
  Android.Returns tt.

(** An SDK that fails with an exception of its own. *)
Definition failing : Android.Exception :=
  {| Android.exceptionMessage := Some "socket closed" |}.

Definition sdk_throws {A : Type} : Android.Result A :=
  Android.Throws (Android.Thrown_Other failing).

Definition configure :=
  Android.configure (Some tt) (λ s, s) scheme host isBlank sdk_configure.

Definition resolveLink (sdk_handleAppLink : string → Android.Result Android.Sdk.DeepLinkResult) :=
  Android.resolveLink (Context := unit) (λ s, s) scheme host lowercase sdk_handleAppLink.

Definition checkForDeferredDeepLink
    (sdk_checkForDeferredDeepLink : Android.Result Android.Sdk.DeepLinkResult) :=
  Android.checkForDeferredDeepLink (Context := unit) (Uri := string) lowercase
    sdk_checkForDeferredDeepLink.

End AndroidExample.

(** ** A concrete device for the iOS module

    Strings stand for URLs, and only [https://] strings are URLs; trimming
    leaves a string as it is; SDK errors have no description of their own;
    the SDK accepts every call. *)

Module IOSExample.

Definition URL_string (s : string) : option string :=
  if String.prefix "https://" s then Some s else None.

Definition trimmed (s : string) : string := s.

Definition errorDescription (e : IOS.Sdk.DynalinksError) : option string := None.

Definition localizedDescription (e : IOS.Error string) : string :=
  match e with
  | IOS.Error_Exception ex => IOS.description ex
  | IOS.Error_Sdk _ => "The operation could not be completed."
  | IOS.Error_Other s => s
  end.

Definition sdk_configure (call : IOS.SdkCall string) : IOS.Result string unit :=
  IOS.Returns tt.

Definition configure :=
  IOS.configure string string URL_string trimmed errorDescription localizedDescription
    sdk_configure.

Definition resolveLink
    (sdk_handleUniversalLink : string → IOS.Result string (IOS.Sdk.DeepLinkResult string)) :=
  IOS.resolveLink string string URL_string (λ url, url) errorDescription localizedDescription
    sdk_handleUniversalLink.

End IOSExample.

(** ** Properties *)

(** *** Objects *)

Lemma dom_object_fields (props : list (string * JsValue)) :
  dom (object_fields props) = list_to_set props.*1.
Proof.
  unfold object_fields.
  assert (Hacc : ∀ acc : gmap string JsValue,
             dom (foldl (λ fields kv, <[kv.1 := kv.2]> fields) acc props)
             = dom acc ∪ list_to_set props.*1).
  { induction props as [|[k v] props IH]; intros acc; cbn.
    - by rewrite (right_id_L ∅ (∪)).
    - by rewrite IH, dom_insert_L, (comm_L (∪) {[k]}), (assoc_L (∪)). }
  by rewrite Hacc, dom_empty_L, (left_id_L ∅ (∪)).
Qed.

Lemma truthy_not_nullish (v : JsValue) : truthy v = true → is_nullish v = false.
Proof. by destruct v. Qed.

Lemma get_not_nullish (host : Host) (v : JsValue) (k : string) :
  is_nullish v = false → get host v k = Normal (read host v k).
Proof. intros H. unfold get. by rewrite H. Qed.

Lemma get_nullish (host : Host) (v : JsValue) (k : string) :
  is_nullish v = true → get host v k = Throw (TypeError host v k).
Proof. intros H. unfold get. by rewrite H. Qed.

Lemma parseResult_not_nullish (host : Host) (nativeResult : JsValue) (isDeferred : bool) :
  is_nullish nativeResult = false →
  parseResult host nativeResult isDeferred = Normal (parsed host nativeResult isDeferred).
Proof.
  intros H. unfold parseResult, parsed, parsed_link.
  rewrite !(get_not_nullish host nativeResult) by done. cbn [mbind Completion_bind].
  destruct (truthy (read host nativeResult "link")) eqn:Hlink; [|done].
  apply truthy_not_nullish in Hlink.
  rewrite !(get_not_nullish host (read host nativeResult "link")) by done.
  done.
Qed.

Lemma parseResult_nullish (host : Host) (nativeResult : JsValue) (isDeferred : bool) :
  is_nullish nativeResult = true →
  parseResult host nativeResult isDeferred = Throw (TypeError host nativeResult "matched").
Proof.
  intros H. unfold parseResult. by rewrite (get_nullish host nativeResult "matched").
Qed.


(** *** The error normalizer *)

Lemma is_case_JStr (s label : string) : is_case (JStr s) label = bool_decide (s = label).
Proof.
  unfold is_case. destruct (String.eqb_spec s label).
  - by rewrite bool_decide_eq_true_2.
  - by rewrite bool_decide_eq_false_2.
Qed.

Lemma subclass_returns (host : Host) (n c : string) (m : JsValue) (s : string) :
  Error_message host m = Normal s →
  subclass host n c m = Normal {| name := n; code := c; message := s |}.
Proof. intros H. unfold subclass, new_DynalinksError. by rewrite H. Qed.

Lemma subclass_throws (host : Host) (n c : string) (m t : JsValue) :
  Error_message host m = Throw t → subclass host n c m = Throw t.
Proof. intros H. unfold subclass, new_DynalinksError. by rewrite H. Qed.

Lemma new_DynalinksError_returns (host : Host) (c : string) (m : JsValue) (s : string) :
  Error_message host m = Normal s →
  new_DynalinksError host c m = Normal {| name := "DynalinksError"; code := c; message := s |}.
Proof. intros H. unfold new_DynalinksError. by rewrite H. Qed.

(** The message of a class whose constructor has the default [d]. *)
Lemma Error_message_default_param (host : Host) (m : JsValue) (d : string) :
  Error_message host (default_param m (JStr d)) =
    match m with
    | JUndefined => Normal d
    | _ => ToString host m
    end.
Proof. by destruct m. Qed.

(** The message of the [UNKNOWN] error. *)
Lemma Error_message_or_placeholder (host : Host) (m : JsValue) :
  Error_message host (js_or m (JStr "Unknown error occurred")) =
    if truthy m then ToString host m else Normal "Unknown error occurred".
Proof. unfold js_or. destruct (truthy m) eqn:Hm; [|done]. by destruct m. Qed.

Lemma subclass_name_code (host : Host) (n c : string) (m : JsValue) (e : DynalinksError) :
  subclass host n c m = Normal e → name e = n ∧ code e = c.
Proof.
  unfold subclass, new_DynalinksError.
  destruct (Error_message host m); cbn; [|done]. by intros [= <-].
Qed.

Lemma new_DynalinksError_name_code (host : Host) (c : string) (m : JsValue) (e : DynalinksError) :
  new_DynalinksError host c m = Normal e → name e = "DynalinksError" ∧ code e = c.
Proof.
  unfold new_DynalinksError.
  destruct (Error_message host m); cbn; [|done]. by intros [= <-].
Qed.

(** Every error [fromNativeError] builds is an instance of one of the
    exported classes with that class's code, or the base class with
    [UNKNOWN]. *)
Lemma fromNativeError_in_taxonomy (host : Host) (code message : JsValue) (e : DynalinksError) :
  fromNativeError host code message = Normal e → in_taxonomy e.
Proof.
  unfold fromNativeError, in_taxonomy, taxonomy.
  repeat (match goal with |- context [if ?b then _ else _] => destruct b end;
          [intros [-> ->]%subclass_name_code; repeat constructor|]).
  intros [-> ->]%new_DynalinksError_name_code. repeat constructor.
Qed.

(** [fromNativeError] returns whenever the message has a string form. *)
Lemma fromNativeError_returns (host : Host) (code message : JsValue) (s : string) :
  ToString host message = Normal s →
  ∃ e, fromNativeError host code message = Normal e.
Proof.
  intros Hs.
  assert (Hdynamic : ∀ n c d, ∃ e,
            subclass host n c (default_param message (JStr d)) = Normal e).
  { intros n c d. unfold subclass, new_DynalinksError.
    rewrite Error_message_default_param.
    destruct message; rewrite ?Hs; eexists; reflexivity. }
  unfold fromNativeError.
  repeat (match goal with |- context [if ?b then _ else _] => destruct b end;
          [first [ apply Hdynamic | eexists; reflexivity ] |]).
  unfold new_DynalinksError. rewrite Error_message_or_placeholder.
  destruct (truthy message); [rewrite Hs|]; eexists; reflexivity.
Qed.

(** The default case is taken exactly when no label is met. *)
Lemma fromNativeError_default (host : Host) (code message : JsValue) :
  (∀ label, label ∈ caseLabels → code ≠ JStr label) →
  fromNativeError host code message =
    new_DynalinksError host "UNKNOWN" (js_or message (JStr "Unknown error occurred")).
Proof.
  intros Hnone.
  assert (Hcase : ∀ label, label ∈ caseLabels → is_case code label = false).
  { intros label Hin. destruct code as [| | | |s| | |]; try done.
    rewrite is_case_JStr. apply bool_decide_eq_false_2. intros ->. by apply (Hnone label). }
  unfold fromNativeError.
  rewrite !Hcase; [done | unfold caseLabels; set_solver ..].
Qed.

(** C2. For every code of the fixed table and every message string,
    [fromNativeError] returns an error of the class of that code, whose
    [code] is the code it was given; the classes whose constructor takes a
    message ([INVALID_API_KEY], [NETWORK_ERROR], [SERVER_ERROR],
    [INVALID_URL]) carry the given message unchanged; [INVALID_INTENT] is
    answered with the [INVALID_URL] class. *)
Theorem fromNativeError_fixed_table (host : Host) (c msg : string) :
  c ∈ nativeCodes →
  (∃ e, fromNativeError host (JStr c) (JStr msg) = Normal e ∧
        code e = c ∧
        in_taxonomy e ∧
        (c ∈ dynamicMessageCodes → message e = msg)) ∧
  fromNativeError host (JStr "INVALID_INTENT") (JStr msg) =
    Normal {| name := "InvalidUrlError"; code := "INVALID_URL"; message := msg |}.
Proof.
  intros Hc. split; [|done].
  destruct (fromNativeError_returns host (JStr c) (JStr msg) msg eq_refl) as [e He].
  exists e. split; [exact He|]. split_and!.
  - unfold nativeCodes in Hc. rewrite !elem_of_cons, elem_of_nil in Hc.
    destruct_or!; subst c; by injection He as <-.
  - by eapply fromNativeError_in_taxonomy.
  - clear Hc. unfold dynamicMessageCodes. rewrite !elem_of_cons, elem_of_nil.
    intros Hd. destruct_or!; subst c; by injection He as <-.
Qed.

Lemma fromNativeError_fixed_table_witness :
  ∃ e, fromNativeError plainHost (JStr "SERVER_ERROR") (JStr "HTTP 503") = Normal e ∧
       code e = "SERVER_ERROR" ∧
       message e = "HTTP 503".
Proof.
  assert (Hc : "SERVER_ERROR" ∈ nativeCodes) by (unfold nativeCodes; repeat constructor).
  destruct (fromNativeError_fixed_table plainHost "SERVER_ERROR" "HTTP 503" Hc)
    as ((e & He & Hcode & _ & Hmsg) & _).
  exists e. split_and!; [exact He | exact Hcode |].
  apply Hmsg. unfold dynamicMessageCodes. repeat constructor.
Defined.

(** C9. Whatever message the native layer sends with [NOT_CONFIGURED], the
    error carries the fixed guidance string of [NotConfiguredError]. *)
Theorem fromNativeError_not_configured_message (host : Host) (msg : JsValue) :
  fromNativeError host (JStr "NOT_CONFIGURED") msg = NotConfiguredError host ∧
  fromNativeError host (JStr "NOT_CONFIGURED") msg =
    Normal {| name := "NotConfiguredError";
              code := "NOT_CONFIGURED";
              message :=
                "Dynalinks SDK has not been configured. Call Dynalinks.configure() first." |}.
Proof. done. Qed.

(** *** The [catch] clause of the facade *)

Lemma catch_clause_not_nullish (host : Host) (err : JsValue) :
  is_nullish err = false →
  catch_clause host err =
    match fromNativeError host (js_or (read host err "code") (JStr "UNKNOWN"))
                          (read host err "message") with
    | Normal e => Typed e
    | Throw v => Raw v
    end.
Proof.
  intros H. unfold catch_clause. by rewrite !get_not_nullish.
Qed.

Lemma catch_clause_nullish (host : Host) (err : JsValue) :
  is_nullish err = true → catch_clause host err = Raw (TypeError host err "code").
Proof.
  intros H. unfold catch_clause. by rewrite (get_nullish host err "code").
Qed.

(** The [UNKNOWN] error built from a message that has the string form
    [s]. *)
Lemma unknown_of_message (host : Host) (m : JsValue) (s : string) :
  ToString host m = Normal s →
  new_DynalinksError host "UNKNOWN" (js_or m (JStr "Unknown error occurred")) =
    Normal {| name := "DynalinksError"; code := "UNKNOWN";
              message := if truthy m then s else "Unknown error occurred" |}.
Proof.
  intros Hs. unfold new_DynalinksError. rewrite Error_message_or_placeholder.
  destruct (truthy m); by rewrite ?Hs.
Qed.

Lemma catch_clause_no_code (host : Host) (err : JsValue) (s : string) :
  is_nullish err = false → read host err "code" = JUndefined →
  ToString host (read host err "message") = Normal s →
  catch_clause host err =
    Typed {| name := "DynalinksError"; code := "UNKNOWN";
             message := if truthy (read host err "message") then s
                        else "Unknown error occurred" |}.
Proof.
  intros Hnn Hcode Hs. rewrite catch_clause_not_nullish by done. rewrite Hcode.
  change (js_or JUndefined (JStr "UNKNOWN")) with (JStr "UNKNOWN").
  rewrite fromNativeError_default.
  - by rewrite (unknown_of_message host _ s).
  - intros label Hin [= <-]. unfold caseLabels in Hin.
    rewrite !elem_of_cons, elem_of_nil in Hin. destruct_or!; done.
Qed.

(** C7, as the code has it. A code that meets no case label, the absent
    code among them, gives the base class with code [UNKNOWN] and the
    message string it was given; an empty or absent message is replaced by
    the placeholder. When the value the facade catches is neither
    [undefined] nor [null], has no [code], and has a message with a string
    form, each of the three methods rejects with that same [UNKNOWN]
    error: with the string form of the message, or with the placeholder
    when the message is falsy. *)
Theorem unknown_fallback (host : Host) (native : NativeModule)
    (c : JsValue) (msg : string) (config : DynalinksConfig) (url : string) :
  (∀ label, label ∈ caseLabels → c ≠ JStr label) →
  let unknown (text : string) : DynalinksError :=
    {| name := "DynalinksError"; code := "UNKNOWN"; message := text |} in
  (msg ≠ "" →
   fromNativeError host c (JStr msg) = Normal (unknown msg) ∧
   fromNativeError host JUndefined (JStr msg) = Normal (unknown msg)) ∧
  fromNativeError host c (JStr "") = Normal (unknown "Unknown error occurred") ∧
  fromNativeError host JUndefined (JStr "") = Normal (unknown "Unknown error occurred") ∧
  fromNativeError host c JUndefined = Normal (unknown "Unknown error occurred") ∧
  fromNativeError host JUndefined JUndefined = Normal (unknown "Unknown error occurred") ∧
  ∀ err s,
    is_nullish err = false →
    read host err "code" = JUndefined →
    ToString host (read host err "message") = Normal s →
    let text := if truthy (read host err "message") then s else "Unknown error occurred" in
    (native (Call_configure (configure_payload config)) = Throw err →
     (configure host native config).2 = Rejected (Typed (unknown text))) ∧
    (native Call_checkForDeferredDeepLink = Throw err →
     (checkForDeferredDeepLink host native).2 = Rejected (Typed (unknown text))) ∧
    (native (Call_resolveLink url) = Throw err →
     (resolveLink host native url).2 = Rejected (Typed (unknown text))).
Proof.
  intros Hc unknown.
  assert (Hstring : ∀ text, text ≠ "" →
            new_DynalinksError host "UNKNOWN" (js_or (JStr text) (JStr "Unknown error occurred"))
            = Normal (unknown text)).
  { intros text Htext. rewrite (unknown_of_message host (JStr text) text) by done.
    cbn. by destruct (String.eqb_spec text ""). }
  split_and!.
  - intros Hmsg. split.
    + rewrite fromNativeError_default by done. by apply Hstring.
    + by apply Hstring.
  - by rewrite fromNativeError_default.
  - done.
  - by rewrite fromNativeError_default.
  - done.
  - intros err s Hnn Hcode Hs text.
    assert (Hcatch : catch_clause host err = Typed (unknown text))
      by (by apply catch_clause_no_code).
    split_and!; intros Hnative; cbn; by rewrite Hnative, <- Hcatch.
Qed.

Lemma unknown_fallback_witness :
  fromNativeError plainHost (JStr "TIMEOUT") (JStr "slow") =
    Normal {| name := "DynalinksError"; code := "UNKNOWN"; message := "slow" |} ∧
  (checkForDeferredDeepLink plainHost (rejecting (object [("message", JStr "boom")]))).2 =
    Rejected (Typed {| name := "DynalinksError"; code := "UNKNOWN"; message := "boom" |}).
Proof.
  assert (Hc : ∀ label, label ∈ caseLabels → JStr "TIMEOUT" ≠ JStr label).
  { intros label Hin Heq. injection Heq as <-. unfold caseLabels in Hin.
    rewrite !elem_of_cons, elem_of_nil in Hin. destruct_or!; done. }
  destruct (unknown_fallback plainHost (rejecting (object [("message", JStr "boom")]))
              (JStr "TIMEOUT") "slow" (config_of_key "k") "https://example.dynalinks.app/p" Hc)
    as (Hnormalizer & _ & _ & _ & _ & Hfacade).
  split.
  - apply Hnormalizer. discriminate.
  - by apply (Hfacade (object [("message", JStr "boom")]) "boom" eq_refl eq_refl eq_refl).
Defined.

(** C7, as stated, fails for a caught value that carries no code because
    it is [undefined]: no [UNKNOWN] code is supplied, the read of
    [error.code] throws and [resolveLink] rejects with that [TypeError].
    It fails as well for a caught object without code whose message has no
    string form: building the error throws. *)
Lemma unknown_not_supplied :
  (resolveLink plainHost (rejecting JUndefined) "https://example.dynalinks.app/p").2 =
    Rejected (Raw (TypeError plainHost JUndefined "code")) ∧
  (∀ e, (resolveLink plainHost (rejecting JUndefined) "https://example.dynalinks.app/p").2 ≠
          Rejected (Typed e)) ∧
  (resolveLink plainHost
     (rejecting (object [ ("message", object [ ("toString", JNum (integer 5)) ]) ]))
     "https://example.dynalinks.app/p").2 =
    Rejected (Raw (ConversionError plainHost (object [ ("toString", JNum (integer 5)) ]))) ∧
  (∀ e, (resolveLink plainHost
           (rejecting (object [ ("message", object [ ("toString", JNum (integer 5)) ]) ]))
           "https://example.dynalinks.app/p").2 ≠ Rejected (Typed e)).
Proof.
  split_and!.
  - reflexivity.
  - intros e H. discriminate H.
  - reflexivity.
  - intros e H. discriminate H.
Qed.

(** *** [configure] *)

Lemma configure_calls (host : Host) (native : NativeModule) (config : DynalinksConfig) :
  (configure host native config).1 = [Call_configure (configure_payload config)].
Proof. done. Qed.

Lemma configure_payload_fields (config : DynalinksConfig) :
  ∃ fields,
    configure_payload config = JObj fields ∧
    fields !! "clientAPIKey" = Some (JStr (clientAPIKey config)) ∧
    fields !! "baseURL" = Some (optional JStr (baseURL config)) ∧
    fields !! "logLevel" =
      Some (js_or (optional (λ l, JStr (logLevelValue l)) (logLevel config))
                  (JStr "error")) ∧
    fields !! "allowSimulator" =
      Some (js_or (optional JBool (allowSimulator config)) (JBool false)).
Proof. eexists. split; [reflexivity|]. split_and!; reflexivity. Qed.

(** C10. The [clientAPIKey] property of the object [configure] hands to the
    native module is the string the caller gave, unchanged, whatever the
    configuration. *)
Theorem configure_forwards_key_unchanged
    (host : Host) (native : NativeModule) (config : DynalinksConfig) :
  ∃ fields,
    (configure host native config).1 = [Call_configure (JObj fields)] ∧
    fields !! "clientAPIKey" = Some (JStr (clientAPIKey config)).
Proof.
  destruct (configure_payload_fields config) as (fields & Hpayload & Hkey & _).
  exists fields. by rewrite configure_calls, Hpayload.
Qed.

(** C4, as the code has it. With a non-empty key and no [logLevel],
    [allowSimulator] or [baseURL], the object handed to the native module
    has [logLevel] equal to ["error"], [allowSimulator] equal to [false],
    and a [baseURL] property that is present and holds [undefined]. *)
Theorem configure_defaults
    (host : Host) (native : NativeModule) (config : DynalinksConfig) :
  clientAPIKey config ≠ "" →
  baseURL config = None →
  logLevel config = None →
  allowSimulator config = None →
  ∃ fields,
    (configure host native config).1 = [Call_configure (JObj fields)] ∧
    fields !! "logLevel" = Some (JStr "error") ∧
    fields !! "allowSimulator" = Some (JBool false) ∧
    fields !! "baseURL" = Some JUndefined.
Proof.
  intros _ HbaseURL HlogLevel HallowSimulator.
  destruct (configure_payload_fields config) as (fields & Hpayload & _ & Hb & Hl & Ha).
  exists fields. rewrite configure_calls, Hpayload.
  rewrite HbaseURL in Hb. rewrite HlogLevel in Hl. rewrite HallowSimulator in Ha.
  done.
Qed.

Lemma configure_defaults_witness :
  ∃ fields,
    (configure plainHost (fulfilling JUndefined) (config_of_key "k")).1 =
      [Call_configure (JObj fields)] ∧
    fields !! "logLevel" = Some (JStr "error") ∧
    fields !! "allowSimulator" = Some (JBool false) ∧
    fields !! "baseURL" = Some JUndefined.
Proof.
  apply (configure_defaults plainHost (fulfilling JUndefined) (config_of_key "k"));
    [discriminate | reflexivity ..].
Defined.

(** C4, as stated, fails for [configure({clientAPIKey: "k"})]: the object
    handed to the native module has the key [baseURL], holding
    [undefined]. *)
Lemma configure_baseURL_key_present :
  ∃ fields,
    (configure plainHost (fulfilling JUndefined) (config_of_key "k")).1 =
      [Call_configure (JObj fields)] ∧
    fields !! "baseURL" = Some JUndefined ∧
    "baseURL" ∈ dom fields ∧
    ¬ (fields !! "baseURL" = None).
Proof.
  eexists. split; [reflexivity|]. split_and!.
  - reflexivity.
  - apply elem_of_dom. eexists. reflexivity.
  - discriminate.
Qed.

(** C3, as the code has it. [configure] checks nothing itself: whatever the
    key, the empty one included, and whatever the native module answers, it
    calls the native module once, with the key as given. It rejects with
    [InvalidApiKeyError] when that call is rejected with a value, neither
    [undefined] nor [null], whose code is [INVALID_API_KEY] and whose
    message has a string form: the error carries that string, or the
    default of the class when the value has no message. *)
Theorem configure_rejects_as_native_does
    (host : Host) (native : NativeModule) (config : DynalinksConfig) :
  (configure host native config).1 = [Call_configure (configure_payload config)] ∧
  read host (configure_payload config) "clientAPIKey" = JStr (clientAPIKey config) ∧
  ∀ err s,
    native (Call_configure (configure_payload config)) = Throw err →
    is_nullish err = false →
    read host err "code" = JStr "INVALID_API_KEY" →
    ToString host (read host err "message") = Normal s →
    (configure host native config).2 =
      Rejected (Typed {| name := "InvalidApiKeyError";
                         code := "INVALID_API_KEY";
                         message := match read host err "message" with
                                    | JUndefined => "Invalid API key format"
                                    | _ => s
                                    end |}).
Proof.
  split_and!; try done.
  intros err s Hnative Hnn Hcode Hs.
  cbn. rewrite Hnative. cbn. rewrite catch_clause_not_nullish by done.
  rewrite Hcode.
  assert (fromNativeError host (js_or (JStr "INVALID_API_KEY") (JStr "UNKNOWN"))
            (read host err "message") =
          InvalidApiKeyError host (read host err "message")) as -> by done.
  unfold InvalidApiKeyError.
  erewrite subclass_returns; [reflexivity|].
  rewrite Error_message_default_param.
  destruct (read host err "message"); by rewrite ?Hs.
Qed.

Lemma configure_rejects_as_native_does_witness :
  configure plainHost
      (rejecting (native_error "INVALID_API_KEY" "Missing or empty clientAPIKey"))
      (config_of_key "") =
    ([Call_configure (configure_payload (config_of_key ""))],
     Rejected (Typed {| name := "InvalidApiKeyError"; code := "INVALID_API_KEY";
                        message := "Missing or empty clientAPIKey" |})).
Proof.
  destruct (configure_rejects_as_native_does plainHost
              (rejecting (native_error "INVALID_API_KEY" "Missing or empty clientAPIKey"))
              (config_of_key ""))
    as (Hcalls & _ & Hrejects).
  rewrite (surjective_pairing (configure _ _ _)), Hcalls.
  rewrite (Hrejects (native_error "INVALID_API_KEY" "Missing or empty clientAPIKey")
             "Missing or empty clientAPIKey" eq_refl eq_refl eq_refl eq_refl).
  reflexivity.
Defined.

(** C3, as stated, fails for [configure({clientAPIKey: ""})]: the native
    module is called, with the empty key; and when the native module
    accepts the call, [configure] resolves. *)
Lemma configure_empty_key_reaches_native :
  (configure plainHost
     (rejecting (native_error "INVALID_API_KEY" "Missing or empty clientAPIKey"))
     (config_of_key "")).1 =
    [Call_configure (configure_payload (config_of_key ""))] ∧
  read plainHost (configure_payload (config_of_key "")) "clientAPIKey" = JStr "" ∧
  (configure plainHost (fulfilling JUndefined) (config_of_key "")).1 ≠ [] ∧
  (configure plainHost (fulfilling JUndefined) (config_of_key "")).2 = Resolved JUndefined.
Proof. split_and!; done. Qed.

(** *** The result normalizer *)



(** *** The facade *)

Lemma TypeError_not_nullish (host : Host) (v : JsValue) (k : string) :
  is_nullish (TypeError host v k) = false.
Proof. done. Qed.



(** How the two methods that return a result settle, by what the native
    module answers. *)
Lemma result_method_settles
    (host : Host) (answer : Completion JsValue) (isDeferred : bool) :
  try_catch host (result ← answer; parseResult host result isDeferred) =
    match answer with
    | Normal result =>
        if is_nullish result
        then Rejected (catch_clause host (TypeError host result "matched"))
        else Resolved (parsed host result isDeferred)
    | Throw err => Rejected (catch_clause host err)
    end.
Proof.
  destruct answer as [result|err]; [|done]. cbn.
  destruct (is_nullish result) eqn:Hresult.
  - by rewrite parseResult_nullish.
  - by rewrite parseResult_not_nullish.
Qed.





(** C6. Whatever the native module answers, a result that
    [checkForDeferredDeepLink] resolves with has [isDeferred] equal to
    [true], and one that [resolveLink] resolves with has it equal to
    [false]; and they do resolve whenever the native module resolves with
    something other than [undefined] or [null]. *)
Theorem isDeferred_is_caller_flag (host : Host) (native : NativeModule) (url : string) :
  (∀ r, (checkForDeferredDeepLink host native).2 = Resolved r →
        read host r "isDeferred" = JBool true) ∧
  (∀ r, (resolveLink host native url).2 = Resolved r →
        read host r "isDeferred" = JBool false) ∧
  (∀ payload, native Call_checkForDeferredDeepLink = Normal payload →
              is_nullish payload = false →
              ∃ r, (checkForDeferredDeepLink host native).2 = Resolved r) ∧
  (∀ payload, native (Call_resolveLink url) = Normal payload →
              is_nullish payload = false →
              ∃ r, (resolveLink host native url).2 = Resolved r).
Proof.
  assert (Hflag : ∀ answer isDeferred r,
             try_catch host (result ← answer; parseResult host result isDeferred) = Resolved r →
             read host r "isDeferred" = JBool isDeferred).
  { intros answer isDeferred r. rewrite result_method_settles.
    destruct answer as [result|err]; [|done].
    destruct (is_nullish result); [done|]. by intros [= <-]. }
  assert (Hresolves : ∀ answer isDeferred payload,
             answer = Normal payload → is_nullish payload = false →
             ∃ r, try_catch host (result ← answer; parseResult host result isDeferred) = Resolved r).
  { intros answer isDeferred payload -> Hpayload. rewrite result_method_settles, Hpayload. eauto. }
  split_and!.
  - intros r. apply Hflag.
  - intros r. apply Hflag.
  - intros payload. apply Hresolves.
  - intros payload. apply Hresolves.
Qed.

Lemma isDeferred_is_caller_flag_witness :
  (∃ r, (checkForDeferredDeepLink plainHost contrary_native).2 = Resolved r ∧
        read plainHost r "isDeferred" = JBool true) ∧
  (∃ r, (resolveLink plainHost contrary_native "https://example.dynalinks.app/p").2 = Resolved r ∧
        read plainHost r "isDeferred" = JBool false).
Proof.
  destruct (isDeferred_is_caller_flag plainHost contrary_native "https://example.dynalinks.app/p")
    as (Hcheck & Hresolve & Hcheck_resolves & Hresolve_resolves).
  split.
  - destruct (Hcheck_resolves (payload_with_flags false) eq_refl eq_refl) as [r Hr].
    exists r. split; [exact Hr | exact (Hcheck r Hr)].
  - destruct (Hresolve_resolves (payload_with_flags true) eq_refl eq_refl) as [r Hr].
    exists r. split; [exact Hr | exact (Hresolve r Hr)].
Defined.

(** C8. [parseResult({matched: false}, true)] is the object with
    [matched: false], [isDeferred: true] and [undefined] under [link],
    [confidence] and [matchScore]; and for any object without [link],
    [confidence] and [match_score], [parseResult] returns, with [undefined]
    under the three. *)
Theorem parseResult_without_optional_fields
    (host : Host) (fields : gmap string JsValue) (isDeferred : bool) :
  fields !! "link" = None →
  fields !! "confidence" = None →
  fields !! "match_score" = None →
  parseResult host (object [ ("matched", JBool false) ]) true =
    Normal (object [ ("matched", JBool false);
                     ("isDeferred", JBool true);
                     ("link", JUndefined);
                     ("confidence", JUndefined);
                     ("matchScore", JUndefined) ]) ∧
  parseResult host (JObj fields) isDeferred =
    Normal (object [ ("matched", js_or (default JUndefined (fields !! "matched")) (JBool false));
                     ("isDeferred", JBool isDeferred);
                     ("link", JUndefined);
                     ("confidence", JUndefined);
                     ("matchScore", JUndefined) ]).
Proof.
  intros Hlink Hconfidence Hscore. split.
  - rewrite parseResult_not_nullish by done. vm_compute. reflexivity.
  - rewrite parseResult_not_nullish by done.
    unfold parsed, read. rewrite Hlink, Hconfidence, Hscore. reflexivity.
Qed.

Lemma parseResult_without_optional_fields_witness :
  parseResult plainHost (payload_with_flags true) false =
    Normal (object [ ("matched", JBool true);
                     ("isDeferred", JBool false);
                     ("link", JUndefined);
                     ("confidence", JUndefined);
                     ("matchScore", JUndefined) ]).
Proof.
  exact (proj2 (parseResult_without_optional_fields plainHost
                  (object_fields [ ("matched", JBool true);
                                   ("is_deferred", JBool true);
                                   ("isDeferred", JBool true) ])
                  false eq_refl eq_refl eq_refl)).
Defined.

(** C5. When the native result has an object under [link], [parseResult]
    returns a result whose [link] has exactly the fourteen camelCase
    properties, each holding what the native link holds under the
    corresponding snake_case key, and [undefined] when the native link has
    no such key. The two examples: [id] and [deep_link_value] give [id] and
    [deepLinkValue] and nothing else; [id] alone gives [id] and nothing
    else. *)
Theorem parseResult_link_mapping
    (host : Host) (fields link : gmap string JsValue) (isDeferred : bool) :
  fields !! "link" = Some (JObj link) →
  (∃ result linkData,
     parseResult host (JObj fields) isDeferred = Normal (JObj result) ∧
     result !! "isDeferred" = Some (JBool isDeferred) ∧
     result !! "link" = Some (JObj linkData) ∧
     dom linkData = linkDataKeys ∧
     (∀ native_key field, (native_key, field) ∈ linkKeyMapping →
        linkData !! field = Some (read host (JObj link) native_key)) ∧
     (∀ native_key field, (native_key, field) ∈ linkKeyMapping →
        link !! native_key = None → linkData !! field = Some JUndefined)) ∧
  parseResult host
      (object [ ("matched", JBool true);
                ("link", object [ ("id", JStr "abc");
                                  ("deep_link_value", JStr "product/42") ]) ])
      false =
    Normal (object [ ("matched", JBool true);
                     ("confidence", JUndefined);
                     ("matchScore", JUndefined);
                     ("link", linkData_of (JStr "abc") (JStr "product/42"));
                     ("isDeferred", JBool false) ]) ∧
  parseResult host
      (object [ ("matched", JBool true);
                ("link", object [ ("id", JStr "abc") ]) ])
      isDeferred =
    Normal (object [ ("matched", JBool true);
                     ("confidence", JUndefined);
                     ("matchScore", JUndefined);
                     ("link", linkData_of (JStr "abc") JUndefined);
                     ("isDeferred", JBool isDeferred) ]).
Proof.
  intros Hlink.
  assert (Hread : read host (JObj fields) "link" = JObj link) by (cbn; by rewrite Hlink).
  assert (Hmapping : ∀ native_key field, (native_key, field) ∈ linkKeyMapping →
            match parsed_link host (JObj link) with
            | JObj linkData => linkData !! field = Some (read host (JObj link) native_key)
            | _ => False
            end).
  { intros native_key field Hin. unfold linkKeyMapping in Hin.
    rewrite !elem_of_cons, elem_of_nil in Hin.
    destruct_or!; try done; simplify_eq; reflexivity. }
  split_and!.
  - rewrite parseResult_not_nullish by done.
    eexists _, (object_fields _). split_and!.
    + reflexivity.
    + reflexivity.
    + cbn [parsed object]. rewrite Hread. reflexivity.
    + by rewrite dom_object_fields.
    + intros native_key field Hin. apply (Hmapping native_key field Hin).
    + intros native_key field Hin Habsent.
      rewrite (Hmapping native_key field Hin). cbn. by rewrite Habsent.
  - rewrite parseResult_not_nullish by done. vm_compute. reflexivity.
  - rewrite parseResult_not_nullish by done. destruct isDeferred; vm_compute; reflexivity.
Qed.

Lemma parseResult_link_mapping_witness :
  ∃ result linkData,
    parseResult plainHost
        (object [ ("matched", JBool true);
                  ("link", object [ ("id", JStr "abc"); ("clicks", JNum (integer 0)) ]) ])
        true = Normal (JObj result) ∧
    result !! "link" = Some (JObj linkData) ∧
    linkData !! "id" = Some (JStr "abc") ∧
    linkData !! "clicks" = Some (JNum (integer 0)) ∧
    linkData !! "name" = Some JUndefined.
Proof.
  destruct (parseResult_link_mapping plainHost
              (object_fields [ ("matched", JBool true);
                               ("link", object [ ("id", JStr "abc"); ("clicks", JNum (integer 0)) ]) ])
              (object_fields [ ("id", JStr "abc"); ("clicks", JNum (integer 0)) ])
              true eq_refl)
    as ((result & linkData & Hparse & _ & Hlink & _ & Hmap & Habsent) & _).
  exists result, linkData. split_and!.
  - exact Hparse.
  - exact Hlink.
  - apply (Hmap "id" "id"). unfold linkKeyMapping. repeat constructor.
  - apply (Hmap "clicks" "clicks"). unfold linkKeyMapping. repeat constructor.
  - apply (Habsent "name" "name"); [unfold linkKeyMapping; repeat constructor | reflexivity].
Defined.

(** ** Further properties of the error normalizer *)

Lemma subclass_throws_inv (host : Host) (n c : string) (m t : JsValue) :
  subclass host n c m = Throw t → Error_message host m = Throw t.
Proof.
  unfold subclass, new_DynalinksError.
  destruct (Error_message host m); cbn; [discriminate | by intros [= ->]].
Qed.

(** [fromNativeError] throws only what the conversion of the message to a
    string throws. *)
Lemma fromNativeError_throws (host : Host) (code message t : JsValue) :
  fromNativeError host code message = Throw t → ToString host message = Throw t.
Proof.
  assert (Hdynamic : ∀ n c d,
            subclass host n c (default_param message (JStr d)) = Throw t →
            ToString host message = Throw t).
  { intros n c d Hthrow%subclass_throws_inv.
    rewrite Error_message_default_param in Hthrow. by destruct message. }
  unfold fromNativeError.
  repeat (match goal with |- context [if ?b then _ else _] => destruct b end;
          [first [ apply Hdynamic | cbn; discriminate ] |]).
  unfold new_DynalinksError. rewrite Error_message_or_placeholder.
  destruct (truthy message), (ToString host message); cbn;
    first [ discriminate | by intros [= ->] ].
Qed.

Lemma fromNativeError_keeps_code (host : Host) (c : string) (m : JsValue) (e : DynalinksError) :
  c ∈ nativeCodes → fromNativeError host (JStr c) m = Normal e → code e = c.
Proof.
  unfold nativeCodes. rewrite !elem_of_cons, elem_of_nil.
  intros Hc He. destruct_or!; try done; subst c;
    by apply subclass_name_code in He as [_ ->].
Qed.

(** X1. For the six codes whose class takes no message, [fromNativeError]
    returns an error of that code, which does not depend on the message
    passed. *)
Theorem fromNativeError_fixed_message_ignores_argument
    (host : Host) (c : string) (m m' : JsValue) :
  c ∈ fixedMessageCodes →
  fromNativeError host (JStr c) m = fromNativeError host (JStr c) m' ∧
  ∃ e, fromNativeError host (JStr c) m = Normal e ∧ code e = c.
Proof.
  unfold fixedMessageCodes. rewrite !elem_of_cons, elem_of_nil.
  intros Hc. destruct_or!; try done; subst c; (split; [done|]);
    eexists; split; reflexivity.
Qed.

Lemma fromNativeError_fixed_message_ignores_argument_witness :
  fromNativeError plainHost (JStr "NO_MATCH") (JStr "nothing for this device") =
    fromNativeError plainHost (JStr "NO_MATCH") (object [ ("toString", JNull) ]).
Proof.
  apply (fromNativeError_fixed_message_ignores_argument plainHost "NO_MATCH").
  unfold fixedMessageCodes. repeat constructor.
Defined.

(** X2. For the five labels that pass the message on, an absent message
    gives the default of the class. Any other message is converted to a
    string: when the conversion returns, the error carries that string,
    and when it throws, [fromNativeError] throws the same. The empty
    string stays empty, where the [UNKNOWN] case would put its
    placeholder. *)
Theorem fromNativeError_dynamic_message (host : Host) (c d : string) (m : JsValue) :
  (c, d) ∈ dynamicDefaults →
  (∃ e, fromNativeError host (JStr c) JUndefined = Normal e ∧ message e = d) ∧
  (m ≠ JUndefined →
   match ToString host m with
   | Normal s => ∃ e, fromNativeError host (JStr c) m = Normal e ∧ message e = s
   | Throw t => fromNativeError host (JStr c) m = Throw t
   end) ∧
  (∃ e, fromNativeError host (JStr c) (JStr "") = Normal e ∧ message e = "").
Proof.
  intros Hc.
  assert (Hkept : ∀ n c',
            m ≠ JUndefined →
            match ToString host m with
            | Normal s => ∃ e, subclass host n c' (default_param m (JStr d)) = Normal e ∧
                               message e = s
            | Throw t => subclass host n c' (default_param m (JStr d)) = Throw t
            end).
  { intros n c' Hm.
    assert (Hmsg : Error_message host (default_param m (JStr d)) = ToString host m)
      by (rewrite Error_message_default_param; by destruct m).
    destruct (ToString host m) as [s|t].
    - eexists. split; [by apply subclass_returns | done].
    - by apply subclass_throws. }
  unfold dynamicDefaults in Hc. rewrite !elem_of_cons, elem_of_nil in Hc.
  destruct_or!; try done; simplify_eq;
    (split_and!; [eexists; split; reflexivity | | eexists; split; reflexivity]).
  - exact (Hkept "InvalidApiKeyError" "INVALID_API_KEY").
  - exact (Hkept "NetworkError" "NETWORK_ERROR").
  - exact (Hkept "ServerError" "SERVER_ERROR").
  - exact (Hkept "InvalidUrlError" "INVALID_URL").
  - exact (Hkept "InvalidUrlError" "INVALID_URL").
Qed.

Lemma fromNativeError_dynamic_message_witness :
  (∃ e, fromNativeError plainHost (JStr "NETWORK_ERROR") JUndefined = Normal e ∧
        message e = "Network request failed") ∧
  (∃ e, fromNativeError plainHost (JStr "NETWORK_ERROR") (JArr [JStr "a"; JNull; JBool true]) =
          Normal e ∧
        message e = "a,,true") ∧
  fromNativeError plainHost (JStr "NETWORK_ERROR") (object [ ("toString", JNull) ]) =
    Throw (ConversionError plainHost (object [ ("toString", JNull) ])).
Proof.
  assert (Hc : ("NETWORK_ERROR", "Network request failed") ∈ dynamicDefaults)
    by (unfold dynamicDefaults; repeat constructor).
  split_and!.
  - apply (fromNativeError_dynamic_message plainHost "NETWORK_ERROR" "Network request failed"
             JNull Hc).
  - apply (fromNativeError_dynamic_message plainHost "NETWORK_ERROR" "Network request failed"
             (JArr [JStr "a"; JNull; JBool true]) Hc). discriminate.
  - apply (fromNativeError_dynamic_message plainHost "NETWORK_ERROR" "Network request failed"
             (object [ ("toString", JNull) ]) Hc). discriminate.
Defined.

(** X3. Given a string as code, [fromNativeError] either returns or throws
    what the conversion of the message to a string throws. The error it
    returns carries the very code it was given exactly for the ten codes
    of the table and for the string [UNKNOWN] itself; every other string,
    the synonym [INVALID_INTENT] included, comes back under another
    code. *)
Theorem fromNativeError_code_kept_iff (host : Host) (s : string) (m : JsValue) :
  match fromNativeError host (JStr s) m with
  | Normal e => code e = s ↔ s ∈ nativeCodes ∨ s = "UNKNOWN"
  | Throw t => ToString host m = Throw t
  end.
Proof.
  destruct (fromNativeError host (JStr s) m) as [e|t] eqn:He;
    [|by eapply fromNativeError_throws].
  revert He. unfold fromNativeError, nativeCodes. rewrite !is_case_JStr.
  rewrite !elem_of_cons, elem_of_nil.
  repeat (case_bool_decide;
          [subst s; intros [_ ->]%subclass_name_code; split; [auto 20 | done] |]).
  case_bool_decide as Hintent.
  - subst s. intros [_ ->]%subclass_name_code. split; [done|].
    intros Hin. destruct_or!; done.
  - intros [_ ->]%new_DynalinksError_name_code. split.
    + intros <-. by right.
    + intros Hin. destruct_or!; done.
Qed.

(** X4. An error with code [UNKNOWN] is an instance of the base class. Its
    message is empty only when the message given is truthy and has the
    empty string as its string form. No string is so, no boolean, and no
    object without a [toString] of its own: with these, and with
    [undefined] and [null], the message is not empty. The empty array is
    so: with it the message is empty. *)
Theorem unknown_error_has_message (host : Host) (c m : JsValue) (e : DynalinksError) :
  fromNativeError host c m = Normal e →
  code e = "UNKNOWN" →
  name e = "DynalinksError" ∧
  (message e = "" → truthy m = true ∧ ToString host m = Normal "") ∧
  (m = JUndefined ∨ m = JNull ∨ (∃ b, m = JBool b) ∨ (∃ s, m = JStr s) ∨
   (∃ fields, m = JObj fields ∧ fields !! "toString" = None) →
   message e ≠ "") ∧
  fromNativeError host c (JArr []) =
    Normal {| name := "DynalinksError"; code := "UNKNOWN"; message := "" |}.
Proof.
  unfold fromNativeError.
  repeat (match goal with |- context [if ?b then _ else _] => destruct b end;
          [by intros [_ ->]%subclass_name_code|]).
  intros He _.
  destruct (new_DynalinksError_name_code _ _ _ _ He) as [Hname _].
  assert (Hempty : message e = "" → truthy m = true ∧ ToString host m = Normal "").
  { revert He. unfold new_DynalinksError. rewrite Error_message_or_placeholder.
    destruct (truthy m) eqn:Hm; [|by intros [= <-]].
    destruct (ToString host m) as [text|t] eqn:Htext; [|done].
    cbn. intros [= <-]. cbn. by intros ->. }
  split_and!; [done | done | | done].
  intros Hm Hmessage. destruct (Hempty Hmessage) as [Htruthy Htext].
  destruct Hm as [-> | [-> | [[b ->] | [[s ->] | (fields & -> & Hnone)]]]]; try done.
  - by destruct b.
  - cbn in Htruthy, Htext. injection Htext as ->. done.
  - cbn in Htext. by rewrite Hnone in Htext.
Qed.

Lemma unknown_error_has_message_witness :
  fromNativeError plainHost (JNum (integer 404)) (JArr []) =
    Normal {| name := "DynalinksError"; code := "UNKNOWN"; message := "" |}.
Proof.
  apply (unknown_error_has_message plainHost (JNum (integer 404)) (JStr "")
           {| name := "DynalinksError"; code := "UNKNOWN";
              message := "Unknown error occurred" |});
    reflexivity.
Defined.

(** ** Further properties of the facade *)

Lemma rejection_becomes_catch_clause (host : Host) (native : NativeModule)
    (config : DynalinksConfig) (url : string) (err : JsValue) :
  rejection_becomes host native config url err (catch_clause host err).
Proof.
  unfold rejection_becomes. split_and!; intros Hnative; cbn; by rewrite Hnative.
Qed.

(** X5. A rejection of the native module whose [code] is one of the ten
    codes of the table reaches the caller of any of the three methods as
    the error of that code, with that same code; unless the message of the
    rejection has no string form, in which case the caller gets what the
    conversion throws. *)
Theorem facade_keeps_table_code (host : Host) (native : NativeModule)
    (config : DynalinksConfig) (url : string) (err : JsValue) (c : string) :
  c ∈ nativeCodes →
  is_nullish err = false →
  read host err "code" = JStr c →
  match fromNativeError host (JStr c) (read host err "message") with
  | Normal e =>
      code e = c ∧ rejection_becomes host native config url err (Typed e)
  | Throw t =>
      ToString host (read host err "message") = Throw t ∧
      rejection_becomes host native config url err (Raw t)
  end.
Proof.
  intros Hc Hnn Hcode.
  pose proof (rejection_becomes_catch_clause host native config url err) as Hbecomes.
  rewrite catch_clause_not_nullish, Hcode in Hbecomes by done.
  assert (Hor : js_or (JStr c) (JStr "UNKNOWN") = JStr c).
  { unfold nativeCodes in Hc. rewrite !elem_of_cons, elem_of_nil in Hc.
    destruct_or!; subst c; done. }
  rewrite Hor in Hbecomes.
  destruct (fromNativeError host (JStr c) (read host err "message")) as [e|t] eqn:He.
  - split; [by eapply fromNativeError_keeps_code | done].
  - split; [by eapply fromNativeError_throws | done].
Qed.

Lemma facade_keeps_table_code_witness :
  (resolveLink plainHost (rejecting (native_error "INVALID_URL" "no host")) "nonsense").2 =
    Rejected (Typed {| name := "InvalidUrlError"; code := "INVALID_URL";
                       message := "no host" |}).
Proof.
  assert (Hc : "INVALID_URL" ∈ nativeCodes) by (unfold nativeCodes; repeat constructor).
  destruct (facade_keeps_table_code plainHost
              (rejecting (native_error "INVALID_URL" "no host"))
              (config_of_key "k") "nonsense" (native_error "INVALID_URL" "no host")
              "INVALID_URL" Hc eq_refl eq_refl) as (_ & _ & _ & Hresolve).
  by apply Hresolve.
Defined.

(** X6. A [code] that is there but falsy (the empty string, [null], [0],
    [NaN], [false]) is treated like a missing one: the three methods
    reject with the [UNKNOWN] error; unless the message of the rejection
    has no string form, in which case the caller gets what the conversion
    throws. *)
Theorem facade_falsy_code_is_unknown (host : Host) (native : NativeModule)
    (config : DynalinksConfig) (url : string) (err : JsValue) :
  is_nullish err = false →
  truthy (read host err "code") = false →
  match fromNativeError host (JStr "UNKNOWN") (read host err "message") with
  | Normal e =>
      name e = "DynalinksError" ∧ code e = "UNKNOWN" ∧
      rejection_becomes host native config url err (Typed e)
  | Throw t =>
      ToString host (read host err "message") = Throw t ∧
      rejection_becomes host native config url err (Raw t)
  end.
Proof.
  intros Hnn Hcode.
  pose proof (rejection_becomes_catch_clause host native config url err) as Hbecomes.
  rewrite catch_clause_not_nullish in Hbecomes by done.
  assert (Hor : js_or (read host err "code") (JStr "UNKNOWN") = JStr "UNKNOWN")
    by (unfold js_or; by rewrite Hcode).
  rewrite Hor in Hbecomes.
  destruct (fromNativeError host (JStr "UNKNOWN") (read host err "message")) as [e|t] eqn:He.
  - apply new_DynalinksError_name_code in He as [Hname Hcode_e]. done.
  - split; [by eapply fromNativeError_throws | done].
Qed.

Lemma facade_falsy_code_is_unknown_witness :
  (configure plainHost (rejecting (native_error "" "bad gateway")) (config_of_key "k")).2 =
    Rejected (Typed {| name := "DynalinksError"; code := "UNKNOWN";
                       message := "bad gateway" |}).
Proof.
  destruct (facade_falsy_code_is_unknown plainHost
              (rejecting (native_error "" "bad gateway"))
              (config_of_key "k") "u" (native_error "" "bad gateway")
              eq_refl eq_refl) as (_ & _ & Hconfigure & _).
  by apply Hconfigure.
Defined.

(** X7. When the native module rejects with [undefined] or [null], each of
    the three methods rejects with the [TypeError] the engine raises for
    reading [code] of that value, not with a [DynalinksError]. *)
Theorem facade_nullish_rejection_is_raw (host : Host) (native : NativeModule)
    (config : DynalinksConfig) (url : string) (err : JsValue) :
  is_nullish err = true →
  rejection_becomes host native config url err (Raw (TypeError host err "code")).
Proof.
  intros Hnullish. rewrite <- (catch_clause_nullish host err Hnullish).
  apply rejection_becomes_catch_clause.
Qed.

Lemma facade_nullish_rejection_is_raw_witness :
  (resolveLink plainHost (rejecting JNull) "https://example.dynalinks.app/p").2 =
    Rejected (Raw (TypeError plainHost JNull "code")).
Proof.
  destruct (facade_nullish_rejection_is_raw plainHost (rejecting JNull)
              (config_of_key "k") "https://example.dynalinks.app/p" JNull eq_refl)
    as (_ & _ & Hresolve).
  by apply Hresolve.
Defined.

(** X8. When the native module resolves with [undefined] or [null], the
    two methods that return a result reject with the [UNKNOWN] error, whose
    message is the one of the [TypeError] that reading [matched] raised. *)
Theorem facade_nullish_payload_is_unknown (host : Host) (native : NativeModule)
    (url : string) (payload : JsValue) :
  is_nullish payload = true →
  (native Call_checkForDeferredDeepLink = Normal payload →
   (checkForDeferredDeepLink host native).2 =
     Rejected (Typed (unknown_error (typeErrorMessage host payload "matched")))) ∧
  (native (Call_resolveLink url) = Normal payload →
   (resolveLink host native url).2 =
     Rejected (Typed (unknown_error (typeErrorMessage host payload "matched")))).
Proof.
  intros Hnullish.
  assert (Hcatch : catch_clause host (TypeError host payload "matched") =
            Typed (unknown_error (typeErrorMessage host payload "matched"))).
  { rewrite (catch_clause_no_code host _ (typeErrorMessage host payload "matched")) by done.
    assert (read host (TypeError host payload "matched") "message" =
              JStr (typeErrorMessage host payload "matched")) as -> by reflexivity.
    unfold unknown_error. cbn.
    by destruct (String.eqb_spec (typeErrorMessage host payload "matched") ""). }
  split; intros Hnative; cbn [checkForDeferredDeepLink resolveLink snd];
    by rewrite result_method_settles, Hnative, Hnullish, Hcatch.
Qed.

Lemma facade_nullish_payload_is_unknown_witness :
  (checkForDeferredDeepLink plainHost (fulfilling JNull)).2 =
    Rejected (Typed {| name := "DynalinksError"; code := "UNKNOWN";
                       message := "Cannot read properties of null (reading 'matched')" |}).
Proof.
  destruct (facade_nullish_payload_is_unknown plainHost (fulfilling JNull) "u" JNull eq_refl)
    as (Hcheck & _).
  by apply Hcheck.
Defined.

(** X9. [configure] resolves exactly when the call into the native module
    is fulfilled, and then with [undefined], whatever value the native
    module fulfilled it with. *)
Theorem configure_resolves_with_undefined
    (host : Host) (native : NativeModule) (config : DynalinksConfig) :
  (∀ v, native (Call_configure (configure_payload config)) = Normal v →
        (configure host native config).2 = Resolved JUndefined) ∧
  (∀ r, (configure host native config).2 = Resolved r →
        r = JUndefined ∧
        ∃ v, native (Call_configure (configure_payload config)) = Normal v).
Proof.
  split.
  - intros v Hnative. cbn. by rewrite Hnative.
  - intros r. cbn.
    destruct (native (Call_configure (configure_payload config))) as [v|err]; [|done].
    intros [= <-]. eauto.
Qed.

Lemma configure_resolves_with_undefined_witness :
  (configure plainHost (fulfilling (JStr "configured")) (config_of_key "k")).2 =
    Resolved JUndefined.
Proof.
  destruct (configure_resolves_with_undefined plainHost (fulfilling (JStr "configured"))
              (config_of_key "k")) as (Hresolves & _).
  exact (Hresolves (JStr "configured") eq_refl).
Defined.

(** X10. The object [configure] hands over has exactly the four properties
    [clientAPIKey], [baseURL], [logLevel] and [allowSimulator]. A log level
    the caller gives, [none] included, is forwarded as its own string and
    never replaced by the default; [allowSimulator] is always a boolean;
    a [baseURL] the caller gives is forwarded as it is, the empty one
    too. *)
Theorem configure_payload_shape (config : DynalinksConfig) :
  ∃ fields,
    configure_payload config = JObj fields ∧
    dom fields = configureKeys ∧
    fields !! "logLevel" = Some (JStr (logLevelValue (default error (logLevel config)))) ∧
    fields !! "allowSimulator" = Some (JBool (default false (allowSimulator config))) ∧
    fields !! "baseURL" = Some (from_option JStr JUndefined (baseURL config)).
Proof.
  destruct (configure_payload_fields config) as (fields & Hpayload & _ & Hb & Hl & Ha).
  exists fields. split_and!.
  - done.
  - assert (JObj fields = JObj (object_fields
              [ ("clientAPIKey", JStr (clientAPIKey config));
                ("baseURL", optional JStr (baseURL config));
                ("logLevel", js_or (optional (λ l, JStr (logLevelValue l)) (logLevel config))
                                   (JStr (logLevelValue error)));
                ("allowSimulator", js_or (optional JBool (allowSimulator config))
                                         (JBool false)) ])) as [= ->]
      by (by rewrite <- Hpayload).
    by rewrite dom_object_fields.
  - rewrite Hl. by destruct (logLevel config) as [[]|].
  - rewrite Ha. by destruct (allowSimulator config) as [[]|].
  - rewrite Hb. by destruct (baseURL config).
Qed.

(** X11. For an object as native result: a falsy [link] ([null], an empty
    string, [0], [false]) gives [link: undefined]; a falsy or missing
    [matched] gives [matched: false], while a truthy one is handed on as it
    is, not turned into a boolean; [confidence] and [match_score] are
    handed on as they are, [null] staying [null]. *)
Theorem parseResult_falsy_and_passed_on
    (host : Host) (fields : gmap string JsValue) (isDeferred : bool) :
  ∃ result,
    parseResult host (JObj fields) isDeferred = Normal (JObj result) ∧
    (truthy (default JUndefined (fields !! "link")) = false →
     result !! "link" = Some JUndefined) ∧
    (truthy (default JUndefined (fields !! "matched")) = false →
     result !! "matched" = Some (JBool false)) ∧
    (truthy (default JUndefined (fields !! "matched")) = true →
     result !! "matched" = Some (default JUndefined (fields !! "matched"))) ∧
    result !! "confidence" = Some (default JUndefined (fields !! "confidence")) ∧
    result !! "matchScore" = Some (default JUndefined (fields !! "match_score")).
Proof.
  rewrite parseResult_not_nullish by done.
  eexists. split; [reflexivity|]. split_and!.
  - intros Hlink.
    assert (parsed_link host (read host (JObj fields) "link") = JUndefined) as Hparsed
      by (unfold parsed_link; cbn [read]; by rewrite Hlink).
    trans (Some (parsed_link host (read host (JObj fields) "link")));
      [reflexivity | by rewrite Hparsed].
  - intros Hmatched.
    assert (js_or (read host (JObj fields) "matched") (JBool false) = JBool false) as Hor
      by (unfold js_or; cbn [read]; by rewrite Hmatched).
    trans (Some (js_or (read host (JObj fields) "matched") (JBool false)));
      [reflexivity | by rewrite Hor].
  - intros Hmatched.
    assert (js_or (read host (JObj fields) "matched") (JBool false) =
              default JUndefined (fields !! "matched")) as Hor
      by (unfold js_or; cbn [read]; by rewrite Hmatched).
    trans (Some (js_or (read host (JObj fields) "matched") (JBool false)));
      [reflexivity | by rewrite Hor].
  - reflexivity.
  - reflexivity.
Qed.

Lemma parseResult_falsy_and_passed_on_witness :
  ∃ result,
    parseResult plainHost
        (object [ ("matched", JStr "yes"); ("confidence", JNull); ("link", JNull) ])
        true = Normal (JObj result) ∧
    result !! "link" = Some JUndefined ∧
    result !! "matched" = Some (JStr "yes") ∧
    result !! "confidence" = Some JNull.
Proof.
  destruct (parseResult_falsy_and_passed_on plainHost
              (object_fields [ ("matched", JStr "yes"); ("confidence", JNull);
                               ("link", JNull) ]) true)
    as (result & Hparse & Hlink & _ & Hmatched & Hconfidence & _).
  exists result. split_and!.
  - exact Hparse.
  - apply Hlink. reflexivity.
  - apply Hmatched. reflexivity.
  - exact Hconfidence.
Defined.

Lemma read_insert_ne (host : Host) (fields : gmap string JsValue) (k k' : string) (v : JsValue) :
  k ≠ k' → read host (JObj (<[k := v]> fields)) k' = read host (JObj fields) k'.
Proof. intros Hne. cbn. by rewrite lookup_insert_ne. Qed.

(** X12. [parseResult] looks at nothing but [matched], [confidence],
    [match_score] and [link] of the native result, and at nothing but the
    fourteen snake_case keys of the link: a property of any other name,
    added to either, changes nothing in what is returned. *)
Theorem parseResult_ignores_other_properties
    (host : Host) (fields link : gmap string JsValue) (isDeferred : bool)
    (k : string) (v : JsValue) :
  (k ∉ resultKeysRead →
   parseResult host (JObj (<[k := v]> fields)) isDeferred =
     parseResult host (JObj fields) isDeferred) ∧
  (k ∉ linkKeysRead →
   fields !! "link" = Some (JObj link) →
   parseResult host (JObj (<["link" := JObj (<[k := v]> link)]> fields)) isDeferred =
     parseResult host (JObj fields) isDeferred).
Proof.
  split.
  - unfold resultKeysRead. rewrite !not_elem_of_cons. intros (? & ? & ? & ? & _).
    rewrite !parseResult_not_nullish by done. unfold parsed.
    by rewrite !read_insert_ne.
  - unfold linkKeysRead, linkKeyMapping. cbn [fmap list_fmap fst].
    rewrite !not_elem_of_cons. intros Hk Hlink. destruct_and!.
    rewrite !parseResult_not_nullish by done. unfold parsed.
    rewrite !(read_insert_ne host fields "link") by done.
    assert (read host (JObj (<["link" := JObj (<[k := v]> link)]> fields)) "link" =
              JObj (<[k := v]> link)) as -> by (cbn; by rewrite lookup_insert_eq).
    assert (read host (JObj fields) "link" = JObj link) as -> by (cbn; by rewrite Hlink).
    unfold parsed_link. cbn [truthy].
    by rewrite !read_insert_ne.
Qed.

Lemma parseResult_ignores_other_properties_witness :
  parseResult plainHost
      (object [ ("matched", JBool true); ("is_deferred", JBool false) ]) true =
    parseResult plainHost (object [ ("matched", JBool true) ]) true.
Proof.
  destruct (parseResult_ignores_other_properties plainHost
              (object_fields [ ("matched", JBool true) ]) ∅ true
              "is_deferred" (JBool false)) as (Hresult & _).
  apply Hresult. unfold resultKeysRead. rewrite !not_elem_of_cons.
  split_and!; [discriminate .. | apply not_elem_of_nil].
Defined.

(** X13. [parseResult] is not meant for its own output: applied to a
    result it has built from a native result with a link, it keeps
    [matched], [confidence] and the five link properties spelt the same in
    both worlds ([id], [name], [path], [url], [clicks]); [matchScore] and
    the nine renamed link properties come out [undefined]; [isDeferred] is
    the flag of the second call. *)
Theorem parseResult_twice
    (host : Host) (fields link : gmap string JsValue) (first second : bool) :
  fields !! "link" = Some (JObj link) →
  ∃ result,
    parseResult host (JObj fields) first = Normal result ∧
    parseResult host result second =
      Normal (object [ ("matched", js_or (read host (JObj fields) "matched") (JBool false));
                       ("confidence", read host (JObj fields) "confidence");
                       ("matchScore", JUndefined);
                       ("link", linkData_after_two_passes host (JObj link));
                       ("isDeferred", JBool second) ]).
Proof.
  intros Hlink.
  assert (Hread : read host (JObj fields) "link" = JObj link) by (cbn; by rewrite Hlink).
  exists (parsed host (JObj fields) first). split.
  - by apply parseResult_not_nullish.
  - rewrite parseResult_not_nullish by done.
    assert (Hmatched : read host (parsed host (JObj fields) first) "matched" =
              js_or (read host (JObj fields) "matched") (JBool false)) by reflexivity.
    assert (Hconfidence : read host (parsed host (JObj fields) first) "confidence" =
              read host (JObj fields) "confidence") by reflexivity.
    assert (Hscore : read host (parsed host (JObj fields) first) "match_score" = JUndefined)
      by reflexivity.
    assert (Hlink2 : read host (parsed host (JObj fields) first) "link" =
              parsed_link host (JObj link)) by (rewrite <- Hread; reflexivity).
    unfold parsed at 1. rewrite Hmatched, Hconfidence, Hscore, Hlink2.
    assert (Hor : ∀ m, js_or (js_or m (JBool false)) (JBool false) = js_or m (JBool false)).
    { intros m. unfold js_or. by destruct (truthy m) eqn:Hm; [rewrite Hm|]. }
    rewrite Hor. reflexivity.
Qed.

Lemma parseResult_twice_witness :
  ∃ result,
    parseResult plainHost
        (object [ ("matched", JBool true); ("match_score", JNum (integer 87));
                  ("link", object [ ("id", JStr "abc");
                                    ("deep_link_value", JStr "product/42") ]) ])
        true = Normal result ∧
    parseResult plainHost result false =
      Normal (object [ ("matched", JBool true);
                       ("confidence", JUndefined);
                       ("matchScore", JUndefined);
                       ("link", linkData_of (JStr "abc") JUndefined);
                       ("isDeferred", JBool false) ]).
Proof.
  destruct (parseResult_twice plainHost
              (object_fields [ ("matched", JBool true); ("match_score", JNum (integer 87));
                               ("link", object [ ("id", JStr "abc");
                                                 ("deep_link_value", JStr "product/42") ]) ])
              (object_fields [ ("id", JStr "abc"); ("deep_link_value", JStr "product/42") ])
              true false eq_refl) as (result & Hfirst & Hsecond).
  exists result. split; [exact Hfirst|]. rewrite Hsecond. vm_compute. reflexivity.
Defined.

(** ** The two versions of [errors.ts] *)

(** X14. The earlier [fromNativeError] answers like the later one on every
    code but the four labels the later one added; those four it answers
    as it answers an unknown code, where the later one, when it returns,
    answers with the code itself (or with [INVALID_URL] for the synonym),
    and throws only what the conversion of the message throws. *)
Theorem earlier_fromNativeError_differs_on_later_labels
    (host : Host) (c m : JsValue) (l : string) :
  l ∈ EarlierErrors.laterLabels →
  ((∀ l', l' ∈ EarlierErrors.laterLabels → c ≠ JStr l') →
   EarlierErrors.fromNativeError host c m = fromNativeError host c m) ∧
  EarlierErrors.fromNativeError host (JStr l) m =
    new_DynalinksError host "UNKNOWN" (js_or m (JStr "Unknown error occurred")) ∧
  match fromNativeError host (JStr l) m with
  | Normal e => code e ≠ "UNKNOWN"
  | Throw t => ToString host m = Throw t
  end.
Proof.
  intros Hl. split_and!.
  - intros Hc.
    assert (Hcase : ∀ l', l' ∈ EarlierErrors.laterLabels → is_case c l' = false).
    { intros l' Hin. destruct c as [| | | |s| | |]; try done.
      rewrite is_case_JStr. apply bool_decide_eq_false_2. intros ->. by apply (Hc l'). }
    unfold EarlierErrors.fromNativeError, fromNativeError.
    rewrite (Hcase "INSTALL_REFERRER_UNAVAILABLE"), (Hcase "INSTALL_REFERRER_TIMEOUT"),
      (Hcase "INVALID_URL"), (Hcase "INVALID_INTENT")
      by (unfold EarlierErrors.laterLabels; repeat constructor).
    done.
  - unfold EarlierErrors.laterLabels in Hl. rewrite !elem_of_cons, elem_of_nil in Hl.
    destruct_or!; subst l; done.
  - destruct (fromNativeError host (JStr l) m) as [e|t] eqn:He;
      [|by eapply fromNativeError_throws].
    unfold EarlierErrors.laterLabels in Hl. rewrite !elem_of_cons, elem_of_nil in Hl.
    destruct_or!; try done; subst l; by apply subclass_name_code in He as [_ ->].
Qed.

Lemma earlier_fromNativeError_differs_on_later_labels_witness :
  EarlierErrors.fromNativeError plainHost (JStr "NO_MATCH") (JStr "m") =
    fromNativeError plainHost (JStr "NO_MATCH") (JStr "m") ∧
  EarlierErrors.fromNativeError plainHost (JStr "INVALID_URL") (JStr "m") =
    Normal {| name := "DynalinksError"; code := "UNKNOWN"; message := "m" |} ∧
  ∃ e, fromNativeError plainHost (JStr "INVALID_URL") (JStr "m") = Normal e ∧
       code e ≠ "UNKNOWN".
Proof.
  assert (Hl : "INVALID_URL" ∈ EarlierErrors.laterLabels)
    by (unfold EarlierErrors.laterLabels; repeat constructor).
  destruct (earlier_fromNativeError_differs_on_later_labels plainHost
              (JStr "NO_MATCH") (JStr "m") "INVALID_URL" Hl) as (Hsame & _ & _).
  destruct (earlier_fromNativeError_differs_on_later_labels plainHost
              (JStr "INVALID_URL") (JStr "m") "INVALID_URL" Hl) as (_ & Hunknown & Hlater).
  split_and!.
  - apply Hsame. intros l' Hin Heq. injection Heq as <-.
    unfold EarlierErrors.laterLabels in Hin. rewrite !elem_of_cons, elem_of_nil in Hin.
    destruct_or!; done.
  - exact Hunknown.
  - eexists. split; [reflexivity | exact Hlater].
Defined.

Lemma earlier_fromNativeError_throws (host : Host) (code message t : JsValue) :
  EarlierErrors.fromNativeError host code message = Throw t →
  ToString host message = Throw t.
Proof.
  assert (Hdynamic : ∀ n c d,
            subclass host n c (default_param message (JStr d)) = Throw t →
            ToString host message = Throw t).
  { intros n c d Hthrow%subclass_throws_inv.
    rewrite Error_message_default_param in Hthrow. by destruct message. }
  unfold EarlierErrors.fromNativeError.
  repeat (match goal with |- context [if ?b then _ else _] => destruct b end;
          [first [ apply Hdynamic | cbn; discriminate ] |]).
  unfold new_DynalinksError. rewrite Error_message_or_placeholder.
  destruct (truthy message), (ToString host message); cbn;
    first [ discriminate | by intros [= ->] ].
Qed.

Lemma fromNativeError_answers_table_code (host : Host) (c : string) (m : JsValue) :
  c ∈ nativeCodes → answers_with_code host m (fromNativeError host (JStr c) m) c.
Proof.
  intros Hc. unfold answers_with_code.
  destruct (fromNativeError host (JStr c) m) as [e|t] eqn:He.
  - by eapply fromNativeError_keeps_code.
  - by eapply fromNativeError_throws.
Qed.

Lemma fromNativeError_answers_unknown (host : Host) (c : string) (m : JsValue) :
  c ∉ caseLabels → answers_with_code host m (fromNativeError host (JStr c) m) "UNKNOWN".
Proof.
  intros Hc. unfold answers_with_code.
  destruct (fromNativeError host (JStr c) m) as [e|t] eqn:He;
    [|by eapply fromNativeError_throws].
  rewrite fromNativeError_default in He.
  - by apply new_DynalinksError_name_code in He as [_ ->].
  - by intros label Hin [= ->].
Qed.

Lemma earlier_fromNativeError_answers (host : Host) (c : string) (m : JsValue) :
  c ∈ nativeCodes →
  answers_with_code host m (EarlierErrors.fromNativeError host (JStr c) m)
    (if bool_decide (c ∈ EarlierErrors.laterLabels) then "UNKNOWN" else c).
Proof.
  intros Hc. unfold answers_with_code.
  destruct (EarlierErrors.fromNativeError host (JStr c) m) as [e|t] eqn:He;
    [|by eapply earlier_fromNativeError_throws].
  unfold nativeCodes in Hc. rewrite !elem_of_cons, elem_of_nil in Hc.
  destruct_or!; try done; subst c;
    first [ by apply subclass_name_code in He as [_ ->]
          | by apply new_DynalinksError_name_code in He as [_ ->] ].
Qed.

(** ** The Android native module *)

Lemma mapOf_lookup (pairs : list (string * Android.Any)) (k : string) (v : Android.Any) :
  NoDup pairs.*1 →
  Android.mapOf pairs !! k = Some v ↔ (k, v) ∈ pairs.
Proof.
  unfold Android.mapOf.
  assert (Hacc : ∀ acc : gmap string Android.Any,
             NoDup pairs.*1 → (∀ k', k' ∈ pairs.*1 → acc !! k' = None) →
             foldl (λ map kv, <[kv.1 := kv.2]> map) acc pairs !! k = Some v
             ↔ (k, v) ∈ pairs ∨ acc !! k = Some v).
  { induction pairs as [|[k0 v0] pairs IH]; intros acc Hnodup Hfresh; cbn.
    - rewrite elem_of_nil. tauto.
    - cbn in Hnodup. apply NoDup_cons in Hnodup as [Hk0 Hnodup].
      rewrite IH; [|done|].
      + rewrite elem_of_cons. destruct (decide (k = k0)) as [->|Hne].
        * rewrite lookup_insert_eq. split.
          -- intros [Hin | [= <-]]; [|by left; left].
             exfalso. apply Hk0. apply list_elem_of_fmap. by exists (k0, v).
          -- intros [[[= <-] | Hin] | Hacc]; [by right | by left |].
             rewrite Hfresh in Hacc; [done | cbn; apply elem_of_cons; by left].
        * rewrite lookup_insert_ne by done. split; [tauto|].
          intros [[[= -> ->] | Hin] | Hacc]; [done | tauto ..].
      + intros k' Hk'. rewrite lookup_insert_ne.
        * apply Hfresh. cbn. apply elem_of_cons. by right.
        * intros <-. done. }
  intros Hnodup. rewrite Hacc; [|done|by intros; apply lookup_empty].
  rewrite lookup_empty. split; [by intros [Hin | Hnone] | tauto].
Qed.

Lemma linkDataPairs_keys (linkData : Android.Sdk.LinkData) :
  (Android.linkDataPairs linkData).*1 =
    [ "id"; "name"; "path"; "shortened_path"; "url"; "full_url"; "deep_link_value";
      "android_fallback_url"; "ios_fallback_url"; "enable_forced_redirect";
      "social_title"; "social_description"; "social_image_url"; "clicks" ].
Proof. reflexivity. Qed.

Lemma linkDataPairs_NoDup (linkData : Android.Sdk.LinkData) :
  NoDup (Android.linkDataPairs linkData).*1.
Proof.
  rewrite linkDataPairs_keys. apply (bool_decide_unpack _). by vm_compute.
Qed.

(** X15. Every code [convertError] of the Android module gives is one of
    the ten codes of the table, so that the later [fromNativeError] answers
    it with the error of that same code; the earlier [fromNativeError]
    does so for all classes but [InvalidIntent] and the two install
    referrer ones, which it answers with [UNKNOWN]. The message is the one
    of the SDK error, or ["Unknown error"] when it has none; with it, a
    string, both versions return. *)
Theorem android_convertError_codes_known
    (engine : Host) (error : Android.Sdk.DynalinksError) (m : JsValue) :
  ∃ c,
    Android.convertError error =
      Android.CodedException_coded c
        (default "Unknown error" (Android.Sdk.message error)) None ∧
    c ∈ nativeCodes ∧
    answers_with_code engine m (fromNativeError engine (JStr c) m) c ∧
    answers_with_code engine m (EarlierErrors.fromNativeError engine (JStr c) m)
      (if Android.needs_later_errors (Android.Sdk.errorClass error) then "UNKNOWN" else c) ∧
    (∃ e, fromNativeError engine (JStr c)
            (JStr (default "Unknown error" (Android.Sdk.message error))) = Normal e ∧
          code e = c) ∧
    (∃ e, EarlierErrors.fromNativeError engine (JStr c)
            (JStr (default "Unknown error" (Android.Sdk.message error))) = Normal e).
Proof.
  assert (Hcode : ∀ c msg,
            c ∈ nativeCodes →
            c ∈ nativeCodes ∧
            answers_with_code engine m (fromNativeError engine (JStr c) m) c ∧
            answers_with_code engine m (EarlierErrors.fromNativeError engine (JStr c) m)
              (if bool_decide (c ∈ EarlierErrors.laterLabels) then "UNKNOWN" else c) ∧
            (∃ e, fromNativeError engine (JStr c) (JStr msg) = Normal e ∧ code e = c) ∧
            (∃ e, EarlierErrors.fromNativeError engine (JStr c) (JStr msg) = Normal e)).
  { intros c msg Hc. split_and!.
    - done.
    - by apply fromNativeError_answers_table_code.
    - by apply earlier_fromNativeError_answers.
    - destruct (fromNativeError_returns engine (JStr c) (JStr msg) msg eq_refl) as [e He].
      exists e. split; [done|]. by eapply fromNativeError_keeps_code.
    - pose proof (earlier_fromNativeError_throws engine (JStr c) (JStr msg)) as Hthrows.
      destruct (EarlierErrors.fromNativeError engine (JStr c) (JStr msg)) as [e|t];
        [by exists e|].
      by specialize (Hthrows t eq_refl). }
  destruct error as [[] msg]; eexists; (split; [reflexivity|]);
    cbn [Android.Sdk.errorClass Android.Sdk.message Android.needs_later_errors];
    match goal with
    | |- ?c ∈ _ ∧ _ =>
        assert (Hc : c ∈ nativeCodes) by (unfold nativeCodes; repeat constructor);
        exact (Hcode c (default "Unknown error" msg) Hc)
    end.
Qed.

(** X16. The map [encodeLinkData] of the Android module builds holds a
    pair exactly when it is one of the fourteen of the link and its value
    is not [null]: a [null] property is left out, never sent as [null].
    Its keys are the fourteen that [parseResult] reads, in another
    order. *)
Theorem android_encodeLinkData_entries
    (linkData : Android.Sdk.LinkData) (key : string) (v : Android.Any) :
  (Android.encodeLinkData linkData !! key = Some v ↔
     (key, v) ∈ Android.linkDataPairs linkData ∧ Android.is_null v = false) ∧
  (Android.encodeLinkData linkData !! key = Some v → key ∈ linkKeysRead) ∧
  (Android.linkDataPairs linkData).*1 ≡ₚ linkKeysRead.
Proof.
  assert (Hiff : Android.encodeLinkData linkData !! key = Some v ↔
            (key, v) ∈ Android.linkDataPairs linkData ∧ Android.is_null v = false).
  { unfold Android.encodeLinkData, Android.filterValues_not_null.
    rewrite map_lookup_filter_Some. cbn.
    by rewrite (mapOf_lookup _ _ _ (linkDataPairs_NoDup linkData)). }
  assert (Hperm : (Android.linkDataPairs linkData).*1 ≡ₚ linkKeysRead).
  { rewrite linkDataPairs_keys. unfold linkKeysRead, linkKeyMapping. cbn [fmap list_fmap fst].
    do 7 apply Permutation_skip. apply Permutation_swap. }
  split_and!; [done | | done].
  intros Hsome. apply Hiff in Hsome as [Hin _].
  rewrite <- Hperm. apply list_elem_of_fmap. by exists (key, v).
Qed.

Lemma android_encodeResult_is_deferred
    (lowercase : string → string) (result : Android.Sdk.DeepLinkResult) (isDeferred : bool) :
  Android.encodeResult lowercase result isDeferred !! "is_deferred" =
    Some (Android.ABoolean isDeferred).
Proof.
  destruct result as [matched [confidence|] matchScore [link|]];
    unfold Android.encodeResult, Android.mapOf; cbn;
    by destruct (Android.is_null matchScore).
Qed.

(** X17. The map [encodeResult] of the Android module builds always has
    [matched] and [is_deferred], the latter being the flag it was called
    with; [confidence], [match_score] and [link] are there exactly when
    the SDK result has them, the confidence as the lower-cased name of the
    constant; and there is no other key. *)
Theorem android_encodeResult_entries
    (lowercase : string → string) (result : Android.Sdk.DeepLinkResult) (isDeferred : bool) :
  Android.encodeResult lowercase result isDeferred !! "matched" =
    Some (Android.Sdk.matched result) ∧
  Android.encodeResult lowercase result isDeferred !! "is_deferred" =
    Some (Android.ABoolean isDeferred) ∧
  Android.encodeResult lowercase result isDeferred !! "confidence" =
    (λ it, Android.AString (lowercase (Android.Sdk.name it))) <$> Android.Sdk.confidence result ∧
  Android.encodeResult lowercase result isDeferred !! "match_score" =
    (if Android.is_null (Android.Sdk.matchScore result) then None
     else Some (Android.Sdk.matchScore result)) ∧
  Android.encodeResult lowercase result isDeferred !! "link" =
    (λ link, Android.AMap (Android.encodeLinkData link)) <$> Android.Sdk.link result ∧
  ∀ key, is_Some (Android.encodeResult lowercase result isDeferred !! key) →
         key ∈ [ "matched"; "is_deferred"; "confidence"; "match_score"; "link" ].
Proof.
  destruct result as [matched [confidence|] matchScore [link|]];
    unfold Android.encodeResult, Android.mapOf; cbn;
    destruct (Android.is_null matchScore); split_and!; try reflexivity;
    intros key; rewrite <- elem_of_dom, ?dom_insert_L, dom_empty_L;
    rewrite ?elem_of_union, !elem_of_singleton, !elem_of_cons, elem_of_empty, elem_of_nil;
    tauto.
Qed.

Section AndroidModule.

Context {Context Uri : Type}.
Variable reactContext : option Context.
Variable Uri_parse : string → Uri.
Variable scheme host : Uri → option string.
Variable isBlank : string → bool.
Variable lowercase : string → string.
Variable sdk_configure : Android.SdkCall Context Uri → Android.Result unit.
Variable sdk_checkForDeferredDeepLink : Android.Result Android.Sdk.DeepLinkResult.
Variable sdk_handleAppLink : Uri → Android.Result Android.Sdk.DeepLinkResult.

Local Abbreviation configure :=
  (Android.configure reactContext Uri_parse scheme host isBlank sdk_configure).
Local Abbreviation checkForDeferredDeepLink :=
  (Android.checkForDeferredDeepLink (Context := Context) (Uri := Uri)
     lowercase sdk_checkForDeferredDeepLink).
Local Abbreviation resolveLink :=
  (Android.resolveLink (Context := Context) Uri_parse scheme host lowercase sdk_handleAppLink).

(** X18. With a React context at hand, [configure] of the Android module
    answers a [clientAPIKey] that is missing, not a string or blank with
    the coded exception [INVALID_API_KEY], without calling the SDK; the
    facade's [fromNativeError] turns that code and message into an
    [InvalidApiKeyError]. *)
Theorem android_configure_blank_key (config : gmap string Android.Any) (context : Context) :
  reactContext = Some context →
  (Android.as_String (Android.index config "clientAPIKey") = None ∨
   ∃ key, Android.as_String (Android.index config "clientAPIKey") = Some key ∧
          isBlank key = true) →
  configure config =
    ([], Android.Throws (Android.Thrown_Coded
           (Android.CodedException_coded "INVALID_API_KEY"
              "Missing or empty clientAPIKey" None))) ∧
  (∀ engine,
     fromNativeError engine (JStr "INVALID_API_KEY") (JStr "Missing or empty clientAPIKey") =
       Normal {| name := "InvalidApiKeyError"; code := "INVALID_API_KEY";
                 message := "Missing or empty clientAPIKey" |}).
Proof using Type.
  intros Hcontext Hkey. split; [|done].
  unfold Android.configure. rewrite Hcontext.
  destruct Hkey as [-> | (key & -> & Hblank)]; cbn; [done|]. by rewrite Hblank.
Qed.

(** X19. With a React context, a key that is not blank and a [baseURL]
    that is missing, not a string or blank, [configure] of the Android
    module calls the SDK once, without [baseURL], with the key as it came
    (not trimmed), the log level named by [logLevel] and the flag
    [allowSimulator]; it returns when the SDK returns, and throws
    [convertError(e)] when the SDK throws the SDK error [e]. A [logLevel]
    that is missing or not a string gives [ERROR], a missing
    [allowSimulator] gives [false]. *)
Theorem android_configure_calls_sdk
    (config : gmap string Android.Any) (context : Context) (key : string) :
  reactContext = Some context →
  Android.as_String (Android.index config "clientAPIKey") = Some key →
  isBlank key = false →
  Android.takeIf_isNotBlank isBlank (Android.as_String (Android.index config "baseURL")) = None →
  let call :=
    Android.Dynalinks_configure context key None
      (Android.logLevel_of (default "error" (Android.as_String (Android.index config "logLevel"))))
      (default false (Android.as_Boolean (Android.index config "allowSimulator"))) in
  (configure config).1 = [call] ∧
  (sdk_configure call = Android.Returns tt → (configure config).2 = Android.Returns tt) ∧
  (∀ e, sdk_configure call = Android.Throws (Android.Thrown_Sdk e) →
        (configure config).2 = Android.Throws (Android.Thrown_Coded (Android.convertError e))) ∧
  (Android.as_String (Android.index config "logLevel") = None →
   Android.logLevel_of (default "error" (Android.as_String (Android.index config "logLevel")))
     = Android.Sdk.ERROR) ∧
  (config !! "allowSimulator" = None →
   default false (Android.as_Boolean (Android.index config "allowSimulator")) = false).
Proof using Type.
  intros Hcontext Hkey Hblank HbaseURL call.
  assert (Hconfigure : configure config = ([call], Android.catch_DynalinksError (sdk_configure call))).
  { unfold Android.configure. rewrite Hcontext, Hkey. cbn. by rewrite Hblank, HbaseURL. }
  rewrite Hconfigure. split_and!.
  - done.
  - intros Hsdk. cbn. by rewrite Hsdk.
  - intros e Hsdk. cbn. by rewrite Hsdk.
  - by intros ->.
  - intros Hnone. unfold Android.index. by rewrite Hnone.
Qed.

(** X20. A [baseURL] that is not blank but parses to a URI without scheme
    or without host makes [configure] of the Android module throw the
    coded exception [INVALID_CONFIG], without calling the SDK. That code is
    no case label of [fromNativeError]: the facade reports it as
    [UNKNOWN]. *)
Theorem android_configure_invalid_baseURL
    (config : gmap string Android.Any) (context : Context) (key baseURL : string) (m : JsValue) :
  reactContext = Some context →
  Android.as_String (Android.index config "clientAPIKey") = Some key →
  isBlank key = false →
  Android.as_String (Android.index config "baseURL") = Some baseURL →
  isBlank baseURL = false →
  Android.isNullOrEmpty (scheme (Uri_parse baseURL))
    || Android.isNullOrEmpty (host (Uri_parse baseURL)) = true →
  configure config =
    ([], Android.Throws (Android.Thrown_Coded
           (Android.CodedException_coded "INVALID_CONFIG" "Invalid baseURL format" None))) ∧
  (∀ engine,
     answers_with_code engine m (fromNativeError engine (JStr "INVALID_CONFIG") m) "UNKNOWN" ∧
     fromNativeError engine (JStr "INVALID_CONFIG") (JStr "Invalid baseURL format") =
       Normal {| name := "DynalinksError"; code := "UNKNOWN";
                 message := "Invalid baseURL format" |}).
Proof using Type.
  intros Hcontext Hkey Hblank HbaseURL Hblank' Hinvalid.
  split;
    [|intros engine; split; [|done];
      apply fromNativeError_answers_unknown; unfold caseLabels;
      rewrite !not_elem_of_cons; split_and!; [discriminate .. | apply not_elem_of_nil]].
  unfold Android.configure. rewrite Hcontext, Hkey, HbaseURL. cbn.
  by rewrite Hblank, Hblank', Hinvalid.
Qed.

(** X21. [resolveLink] of the Android module answers a URL without scheme
    or without host with the coded exception [INVALID_URL], without calling
    the SDK; for any other URL it calls the SDK once and, when the SDK
    returns a result, returns its encoding with [is_deferred] equal to
    [false]. *)
Theorem android_resolveLink_checks_url (url : string) :
  (Android.isNullOrEmpty (scheme (Uri_parse url))
     || Android.isNullOrEmpty (host (Uri_parse url)) = true →
   resolveLink url =
     ([], Android.Throws (Android.Thrown_Coded
            (Android.CodedException_coded "INVALID_URL"
               "URL must have a valid scheme and host" None)))) ∧
  (Android.isNullOrEmpty (scheme (Uri_parse url))
     || Android.isNullOrEmpty (host (Uri_parse url)) = false →
   (resolveLink url).1 = [Android.Dynalinks_handleAppLink (Uri_parse url)] ∧
   ∀ result, sdk_handleAppLink (Uri_parse url) = Android.Returns result →
     (resolveLink url).2 = Android.Returns (Android.encodeResult lowercase result false) ∧
     Android.encodeResult lowercase result false !! "is_deferred" =
       Some (Android.ABoolean false)).
Proof using Type.
  split; intros Hurl; unfold Android.resolveLink; rewrite Hurl; [done|].
  split; [done|]. intros result Hsdk. cbn. rewrite Hsdk.
  split; [done|]. apply android_encodeResult_is_deferred.
Qed.

(** X22. Whatever [resolveLink] of the Android module throws is a coded
    exception: an exception of the SDK that is neither a coded one nor a
    [DynalinksError] is wrapped as [UNKNOWN], its message after
    ["Unexpected error: "]. [checkForDeferredDeepLink] has no such clause:
    the same exception leaves it as it is. *)
Theorem android_resolveLink_throws_coded (url : string) (t : Android.Throwable) (e : Android.Exception) :
  ((resolveLink url).2 = Android.Throws t → ∃ coded, t = Android.Thrown_Coded coded) ∧
  (Android.isNullOrEmpty (scheme (Uri_parse url))
     || Android.isNullOrEmpty (host (Uri_parse url)) = false →
   sdk_handleAppLink (Uri_parse url) = Android.Throws (Android.Thrown_Other e) →
   (resolveLink url).2 =
     Android.Throws (Android.Thrown_Coded
       (Android.CodedException_coded "UNKNOWN"
          ("Unexpected error: " ++ Android.template (Android.exceptionMessage e)) (Some e)))) ∧
  (sdk_checkForDeferredDeepLink = Android.Throws (Android.Thrown_Other e) →
   checkForDeferredDeepLink.2 = Android.Throws (Android.Thrown_Other e)).
Proof using Type.
  split_and!.
  - unfold Android.resolveLink.
    destruct (Android.isNullOrEmpty (scheme (Uri_parse url))
                || Android.isNullOrEmpty (host (Uri_parse url))); cbn.
    + intros [= <-]. eauto.
    + destruct (sdk_handleAppLink (Uri_parse url)) as [result|[coded|sdk|other]]; cbn;
        intros [= <-]; eauto.
  - intros Hurl Hsdk. unfold Android.resolveLink. rewrite Hurl. cbn. by rewrite Hsdk.
  - intros Hsdk. cbn. by rewrite Hsdk.
Qed.

End AndroidModule.

Lemma android_configure_blank_key_witness :
  AndroidExample.configure (Android.mapOf [ ("clientAPIKey", Android.AString "") ]) =
    ([], Android.Throws (Android.Thrown_Coded
           (Android.CodedException_coded "INVALID_API_KEY"
              "Missing or empty clientAPIKey" None))).
Proof.
  refine (proj1 (android_configure_blank_key (Some tt) (λ s, s) AndroidExample.scheme
                   AndroidExample.host AndroidExample.isBlank AndroidExample.sdk_configure
                   (Android.mapOf [ ("clientAPIKey", Android.AString "") ]) tt eq_refl _)).
  right. exists "". split; reflexivity.
Defined.

Lemma android_configure_calls_sdk_witness :
  AndroidExample.configure
      (Android.mapOf [ ("clientAPIKey", Android.AString " k ");
                       ("logLevel", Android.AString "verbose") ]) =
    ([Android.Dynalinks_configure tt " k " None Android.Sdk.ERROR false], Android.Returns tt).
Proof.
  destruct (android_configure_calls_sdk (Some tt) (λ s, s) AndroidExample.scheme
              AndroidExample.host AndroidExample.isBlank AndroidExample.sdk_configure
              (Android.mapOf [ ("clientAPIKey", Android.AString " k ");
                               ("logLevel", Android.AString "verbose") ])
              tt " k " eq_refl eq_refl eq_refl eq_refl) as (Hcalls & Hreturns & _).
  unfold AndroidExample.configure.
  rewrite (surjective_pairing (Android.configure _ _ _ _ _ _ _)), Hcalls, Hreturns; reflexivity.
Defined.

Lemma android_configure_invalid_baseURL_witness :
  AndroidExample.configure
      (Android.mapOf [ ("clientAPIKey", Android.AString "k");
                       ("baseURL", Android.AString "dynalinks.app/api") ]) =
    ([], Android.Throws (Android.Thrown_Coded
           (Android.CodedException_coded "INVALID_CONFIG" "Invalid baseURL format" None))).
Proof.
  exact (proj1 (android_configure_invalid_baseURL (Some tt) (λ s, s) AndroidExample.scheme
                  AndroidExample.host AndroidExample.isBlank AndroidExample.sdk_configure
                  (Android.mapOf [ ("clientAPIKey", Android.AString "k");
                                   ("baseURL", Android.AString "dynalinks.app/api") ])
                  tt "k" "dynalinks.app/api" JUndefined
                  eq_refl eq_refl eq_refl eq_refl eq_refl eq_refl)).
Defined.

Lemma android_resolveLink_checks_url_witness :
  AndroidExample.resolveLink (λ _, Android.Returns AndroidExample.sdk_result) "product/42" =
    ([], Android.Throws (Android.Thrown_Coded
           (Android.CodedException_coded "INVALID_URL"
              "URL must have a valid scheme and host" None))) ∧
  (AndroidExample.resolveLink (λ _, Android.Returns AndroidExample.sdk_result)
     "https://example.dynalinks.app/p").2 =
    Android.Returns (Android.mapOf [ ("matched", Android.ABoolean true);
                                     ("is_deferred", Android.ABoolean false);
                                     ("confidence", Android.AString "high") ]).
Proof.
  split.
  - exact (proj1 (android_resolveLink_checks_url (Context := unit) (λ s, s)
                    AndroidExample.scheme AndroidExample.host AndroidExample.lowercase
                    (λ _, Android.Returns AndroidExample.sdk_result) "product/42") eq_refl).
  - destruct (proj2 (android_resolveLink_checks_url (Context := unit) (λ s, s)
                       AndroidExample.scheme AndroidExample.host AndroidExample.lowercase
                       (λ _, Android.Returns AndroidExample.sdk_result)
                       "https://example.dynalinks.app/p") eq_refl) as (_ & Hreturns).
    destruct (Hreturns AndroidExample.sdk_result eq_refl) as (Hresult & _).
    unfold AndroidExample.resolveLink. rewrite Hresult. reflexivity.
Defined.

Lemma android_resolveLink_throws_coded_witness :
  (AndroidExample.resolveLink (λ _, AndroidExample.sdk_throws)
     "https://example.dynalinks.app/p").2 =
    Android.Throws (Android.Thrown_Coded
      (Android.CodedException_coded "UNKNOWN" "Unexpected error: socket closed"
         (Some AndroidExample.failing))) ∧
  (AndroidExample.checkForDeferredDeepLink AndroidExample.sdk_throws).2 =
    Android.Throws (Android.Thrown_Other AndroidExample.failing).
Proof.
  destruct (android_resolveLink_throws_coded (Context := unit) (λ s, s)
              AndroidExample.scheme AndroidExample.host AndroidExample.lowercase
              AndroidExample.sdk_throws (λ _, AndroidExample.sdk_throws)
              "https://example.dynalinks.app/p"
              (Android.Thrown_Other AndroidExample.failing) AndroidExample.failing)
    as (_ & Hresolve & Hcheck).
  split; [exact (Hresolve eq_refl eq_refl) | exact (Hcheck eq_refl)].
Defined.

(** ** The iOS native module *)

Lemma ios_convertError_name_in_table
    (errorDescription : IOS.Sdk.DynalinksError → option string)
    (error : IOS.Sdk.DynalinksError) :
  IOS.name (IOS.convertError errorDescription error) ∈ nativeCodes.
Proof. destruct error; cbn; unfold nativeCodes; repeat constructor. Qed.

(** X23. Every name [convertError] of the iOS module gives is one of the
    codes of the table, and one that both versions of [fromNativeError]
    answer with the error of that same code. The description is the SDK's
    own message for [invalidAPIKey] and for a [serverError] that has one;
    a [serverError] without message is described by its status code. *)
Theorem ios_convertError_codes_known
    (engine : Host) (errorDescription : IOS.Sdk.DynalinksError → option string)
    (error : IOS.Sdk.DynalinksError) (m : JsValue) (msg : string) (statusCode : Z) :
  IOS.name (IOS.convertError errorDescription error) ∈ nativeCodes ∧
  answers_with_code engine m
    (fromNativeError engine (JStr (IOS.name (IOS.convertError errorDescription error))) m)
    (IOS.name (IOS.convertError errorDescription error)) ∧
  answers_with_code engine m
    (EarlierErrors.fromNativeError engine
       (JStr (IOS.name (IOS.convertError errorDescription error))) m)
    (IOS.name (IOS.convertError errorDescription error)) ∧
  (∃ e, fromNativeError engine
          (JStr (IOS.name (IOS.convertError errorDescription error)))
          (JStr (IOS.description (IOS.convertError errorDescription error))) = Normal e ∧
        code e = IOS.name (IOS.convertError errorDescription error)) ∧
  IOS.description (IOS.convertError errorDescription (IOS.Sdk.invalidAPIKey msg)) = msg ∧
  IOS.description (IOS.convertError errorDescription (IOS.Sdk.serverError statusCode (Some msg)))
    = msg ∧
  IOS.description (IOS.convertError errorDescription (IOS.Sdk.serverError statusCode None))
    = "Server error: " ++ pretty statusCode.
Proof.
  split_and!; try reflexivity.
  - apply ios_convertError_name_in_table.
  - apply fromNativeError_answers_table_code, ios_convertError_name_in_table.
  - pose proof (earlier_fromNativeError_answers engine
                  (IOS.name (IOS.convertError errorDescription error)) m
                  (ios_convertError_name_in_table errorDescription error)) as Hearlier.
    by destruct error.
  - destruct (fromNativeError_returns engine
                (JStr (IOS.name (IOS.convertError errorDescription error)))
                (JStr (IOS.description (IOS.convertError errorDescription error)))
                _ eq_refl) as [e He].
    exists e. split; [done|].
    eapply fromNativeError_keeps_code; [|done]. apply ios_convertError_name_in_table.
Qed.

Lemma dom_foldl_insert {V : Type} (pairs : list (string * V)) :
  dom (foldl (λ (map : gmap string V) kv, <[kv.1 := kv.2]> map) ∅ pairs)
    = list_to_set pairs.*1.
Proof.
  assert (Hacc : ∀ acc : gmap string V,
             dom (foldl (λ map kv, <[kv.1 := kv.2]> map) acc pairs)
             = dom acc ∪ list_to_set pairs.*1).
  { induction pairs as [|[k v] pairs IH]; intros acc; cbn.
    - by rewrite (right_id_L ∅ (∪)).
    - by rewrite IH, dom_insert_L, (comm_L (∪) {[k]}), (assoc_L (∪)). }
  by rewrite Hacc, dom_empty_L, (left_id_L ∅ (∪)).
Qed.

(** X24. The dictionary [encodeLinkData] of the iOS module builds always
    has the same fifteen keys, a property without value being sent as
    [nil] under its key: the fourteen keys [parseResult] reads, and
    [ios_deferred_deep_linking_enabled], which it does not read. *)
Theorem ios_encodeLinkData_keys {URL : Type} (absoluteString : URL → string)
    (link : IOS.Sdk.LinkData URL) (key : string) :
  (is_Some (IOS.encodeLinkData URL absoluteString link !! key) ↔
     key ∈ linkKeysRead ∨ key = "ios_deferred_deep_linking_enabled") ∧
  ("ios_deferred_deep_linking_enabled" ∉ linkKeysRead) ∧
  (IOS.Sdk.url link = None →
   IOS.encodeLinkData URL absoluteString link !! "url" = Some IOS.ANil).
Proof.
  split_and!.
  - rewrite <- elem_of_dom. unfold IOS.encodeLinkData, IOS.dictionary.
    rewrite dom_foldl_insert. cbn [fmap list_fmap fst IOS.linkDataPairs].
    unfold linkKeysRead, linkKeyMapping. cbn [fmap list_fmap fst].
    rewrite elem_of_list_to_set, !elem_of_cons, !elem_of_nil. tauto.
  - unfold linkKeysRead, linkKeyMapping. cbn [fmap list_fmap fst].
    rewrite !not_elem_of_cons. split_and!; [discriminate .. | apply not_elem_of_nil].
  - intros Hurl.
    assert (IOS.encodeLinkData URL absoluteString link !! "url" =
              Some (IOS.optional_absoluteString URL absoluteString (IOS.Sdk.url link)))
      as -> by reflexivity.
    by rewrite Hurl.
Qed.

Section IOSModule.

Context {URL OtherError : Type}.
Variable URL_string : string → option URL.
Variable absoluteString : URL → string.
Variable trimmed : string → string.
Variable errorDescription : IOS.Sdk.DynalinksError → option string.
Variable localizedDescription : IOS.Error OtherError → string.
Variable sdk_configure : IOS.SdkCall URL → IOS.Result OtherError unit.
Variable sdk_checkForDeferredDeepLink : IOS.Result OtherError (IOS.Sdk.DeepLinkResult URL).
Variable sdk_handleUniversalLink : URL → IOS.Result OtherError (IOS.Sdk.DeepLinkResult URL).

Local Abbreviation configure :=
  (IOS.configure URL OtherError URL_string trimmed errorDescription localizedDescription
     sdk_configure).
Local Abbreviation checkForDeferredDeepLink :=
  (IOS.checkForDeferredDeepLink URL OtherError absoluteString errorDescription
     localizedDescription sdk_checkForDeferredDeepLink).
Local Abbreviation resolveLink :=
  (IOS.resolveLink URL OtherError URL_string absoluteString errorDescription
     localizedDescription sdk_handleUniversalLink).

(** X25. [configure] of the iOS module answers a [clientAPIKey] that is
    missing or not a string, and one that is empty once trimmed, with an
    exception named [INVALID_API_KEY], without calling the SDK. *)
Theorem ios_configure_blank_key (config : gmap string IOS.Any) :
  (IOS.as_String (config !! "clientAPIKey") = None →
   configure config =
     ([], IOS.Throws (IOS.Error_Exception
            {| IOS.name := "INVALID_API_KEY";
               IOS.description := "Missing clientAPIKey in configuration" |}))) ∧
  (∀ raw, IOS.as_String (config !! "clientAPIKey") = Some raw →
          trimmed raw = "" →
          configure config =
            ([], IOS.Throws (IOS.Error_Exception
                   {| IOS.name := "INVALID_API_KEY";
                      IOS.description := "Invalid clientAPIKey in configuration: API key must be a non-empty string" |}))).
Proof using Type.
  split.
  - intros Hkey. unfold IOS.configure. by rewrite Hkey.
  - intros raw Hkey Htrimmed. unfold IOS.configure. by rewrite Hkey, Htrimmed.
Qed.

(** X26. With a key that is not empty once trimmed and a [baseURL] that is
    missing, not a string or empty once trimmed, [configure] of the iOS
    module calls the SDK once, without [baseURL] and with the trimmed key;
    it returns when the SDK returns, throws [convertError(e)] when the SDK
    throws the SDK error [e], and an exception named [UNKNOWN] when the SDK
    throws anything else. *)
Theorem ios_configure_calls_sdk (config : gmap string IOS.Any) (raw : string) :
  IOS.as_String (config !! "clientAPIKey") = Some raw →
  trimmed raw ≠ "" →
  (IOS.as_String (config !! "baseURL") = None ∨
   ∃ baseURL, IOS.as_String (config !! "baseURL") = Some baseURL ∧ trimmed baseURL = "") →
  let call :=
    IOS.Dynalinks_configure (trimmed raw) None
      (IOS.logLevel_of (default "error" (IOS.as_String (config !! "logLevel"))))
      (default false (IOS.as_Bool (config !! "allowSimulator"))) in
  (configure config).1 = [call] ∧
  (sdk_configure call = IOS.Returns tt → (configure config).2 = IOS.Returns tt) ∧
  (∀ e, sdk_configure call = IOS.Throws (IOS.Error_Sdk e) →
        (configure config).2 =
          IOS.Throws (IOS.Error_Exception (IOS.convertError errorDescription e))) ∧
  (∀ e, sdk_configure call = IOS.Throws (IOS.Error_Other e) →
        (configure config).2 =
          IOS.Throws (IOS.Error_Exception
            {| IOS.name := "UNKNOWN";
               IOS.description :=
                 "Unexpected error: " ++ localizedDescription (IOS.Error_Other e) |})).
Proof using Type.
  intros Hkey Htrimmed HbaseURL call.
  assert (Hconfigure : configure config =
            ([call], IOS.do_catch OtherError errorDescription localizedDescription
                       (sdk_configure call))).
  { unfold IOS.configure. rewrite Hkey.
    destruct (String.eqb_spec (trimmed raw) "") as [Hempty|_]; [done|].
    destruct HbaseURL as [-> | (baseURL & -> & Hblank)]; cbn; [done|].
    by rewrite Hblank. }
  rewrite Hconfigure. split_and!.
  - done.
  - intros Hsdk. cbn. by rewrite Hsdk.
  - intros e Hsdk. cbn. by rewrite Hsdk.
  - intros e Hsdk. cbn. by rewrite Hsdk.
Qed.

(** X27. A [baseURL] that is not empty once trimmed but is no URL makes
    [configure] of the iOS module throw [INVALID_CONFIG] inside its [do]
    block, where the last [catch] clause takes it: what leaves [configure]
    is an exception named [UNKNOWN], and the SDK is not called. *)
Theorem ios_configure_invalid_baseURL (config : gmap string IOS.Any) (raw baseURL : string) :
  IOS.as_String (config !! "clientAPIKey") = Some raw →
  trimmed raw ≠ "" →
  IOS.as_String (config !! "baseURL") = Some baseURL →
  trimmed baseURL ≠ "" →
  URL_string (trimmed baseURL) = None →
  configure config =
    ([], IOS.Throws (IOS.Error_Exception
           {| IOS.name := "UNKNOWN";
              IOS.description :=
                "Unexpected error: " ++
                localizedDescription
                  (IOS.Error_Exception
                     {| IOS.name := "INVALID_CONFIG";
                        IOS.description := "Invalid baseURL in configuration" |}) |})).
Proof using Type.
  intros Hkey Htrimmed HbaseURL Hnonempty Hurl.
  unfold IOS.configure. rewrite Hkey, HbaseURL. cbn.
  destruct (String.eqb_spec (trimmed raw) "") as [Hempty|_]; [done|].
  destruct (String.eqb_spec (trimmed baseURL) "") as [Hempty|_]; [done|].
  by rewrite Hurl.
Qed.

(** X28. Whatever one of the three functions of the iOS module throws is
    an exception of the module whose name is a code of the table or
    [UNKNOWN]; [INVALID_CONFIG] in particular never leaves the module. *)
Theorem ios_throws_known_names
    (config : gmap string IOS.Any) (url : string) (e : IOS.Error OtherError) :
  (configure config).2 = IOS.Throws e ∨
  checkForDeferredDeepLink.2 = IOS.Throws e ∨
  (resolveLink url).2 = IOS.Throws e →
  ∃ ex, e = IOS.Error_Exception ex ∧
        (IOS.name ex ∈ nativeCodes ∨ IOS.name ex = "UNKNOWN").
Proof using Type.
  assert (Hconvert : ∀ error,
            IOS.name (IOS.convertError errorDescription error) ∈ nativeCodes).
  { intros error. apply ios_convertError_name_in_table. }
  assert (Hcatch : ∀ (A : Type) (body : IOS.Result OtherError A),
            IOS.do_catch OtherError errorDescription localizedDescription body = IOS.Throws e →
            ∃ ex, e = IOS.Error_Exception ex ∧
                  (IOS.name ex ∈ nativeCodes ∨ IOS.name ex = "UNKNOWN")).
  { intros A [a|[ex|error|other]]; cbn; intros [= <-]; eexists; (split; [reflexivity|]);
      first [by right | left; apply Hconvert]. }
  assert (Hkey : "INVALID_API_KEY" ∈ nativeCodes) by (unfold nativeCodes; repeat constructor).
  assert (Hurl : "INVALID_URL" ∈ nativeCodes) by (unfold nativeCodes; repeat constructor).
  intros [Hthrows | [Hthrows | Hthrows]].
  - unfold IOS.configure in Hthrows.
    repeat case_match; cbn [snd] in Hthrows;
      first [ by apply Hcatch in Hthrows
            | injection Hthrows as <-; eexists; split; [reflexivity | by left] ].
  - by apply Hcatch in Hthrows.
  - unfold IOS.resolveLink in Hthrows.
    case_match; cbn [snd] in Hthrows;
      first [ by apply Hcatch in Hthrows
            | injection Hthrows as <-; eexists; split; [reflexivity | by left] ].
Qed.

End IOSModule.

Lemma ios_configure_calls_sdk_witness :
  IOSExample.configure (IOS.dictionary [ ("clientAPIKey", IOS.AString "k");
                                         ("logLevel", IOS.AString "debug") ]) =
    ([IOS.Dynalinks_configure "k" None IOS.Sdk.debug false], IOS.Returns tt).
Proof.
  assert (Hkey : IOSExample.trimmed "k" ≠ "") by discriminate.
  destruct (ios_configure_calls_sdk IOSExample.URL_string IOSExample.trimmed
              IOSExample.errorDescription IOSExample.localizedDescription
              IOSExample.sdk_configure
              (IOS.dictionary [ ("clientAPIKey", IOS.AString "k");
                                ("logLevel", IOS.AString "debug") ])
              "k" eq_refl Hkey (or_introl eq_refl)) as (Hcalls & Hreturns & _).
  unfold IOSExample.configure.
  rewrite (surjective_pairing (IOS.configure _ _ _ _ _ _ _ _)), Hcalls, Hreturns; reflexivity.
Defined.

Lemma ios_configure_invalid_baseURL_witness :
  IOSExample.configure (IOS.dictionary [ ("clientAPIKey", IOS.AString "k");
                                         ("baseURL", IOS.AString "not a url") ]) =
    ([], IOS.Throws (IOS.Error_Exception
           {| IOS.name := "UNKNOWN";
              IOS.description := "Unexpected error: Invalid baseURL in configuration" |})).
Proof.
  assert (Hkey : IOSExample.trimmed "k" ≠ "") by discriminate.
  assert (HbaseURL : IOSExample.trimmed "not a url" ≠ "") by discriminate.
  exact (ios_configure_invalid_baseURL IOSExample.URL_string IOSExample.trimmed
           IOSExample.errorDescription IOSExample.localizedDescription
           IOSExample.sdk_configure
           (IOS.dictionary [ ("clientAPIKey", IOS.AString "k");
                             ("baseURL", IOS.AString "not a url") ])
           "k" "not a url" eq_refl Hkey eq_refl HbaseURL eq_refl).
Defined.

Lemma ios_throws_known_names_witness :
  ∃ ex,
    IOS.Error_Exception (OtherError := string)
      {| IOS.name := "INVALID_URL"; IOS.description := "Invalid URL format" |} =
      IOS.Error_Exception ex ∧
    (IOS.name ex ∈ nativeCodes ∨ IOS.name ex = "UNKNOWN").
Proof.
  apply (ios_throws_known_names IOSExample.URL_string (λ url, url) IOSExample.trimmed
           IOSExample.errorDescription IOSExample.localizedDescription
           IOSExample.sdk_configure
           (IOS.Throws (IOS.Error_Other "offline"))
           (λ _, IOS.Throws (IOS.Error_Other "offline"))
           ∅ "nonsense").
  right. right. reflexivity.
Defined.
